(** * sql_metadata.token: the linked token model

    A shallow embedding of [src/sql_metadata/token.py].  Token objects live
    in a store and refer to each other by address, as the Python objects do
    through [previous_token] and [next_token]; the module-level [EmptyToken]
    is the first object of the store.

    Text is modelled as [string] (ASCII text): [upper] acts on the letters
    [a]..[z] and leaves every other character as it is. *)

From Stdlib Require Import ZArith Ascii String List Lia Bool.
From stdpp Require Import base option list strings gmap.

Local Open Scope string_scope.
Local Open Scope list_scope.
Local Open Scope Z_scope.

(** ** Python [str] methods used by the module *)

Module PyStr.

Definition char_in (c : ascii) (chars : string) : bool :=
  existsb (Ascii.eqb c) (list_ascii_of_string chars).

(** [s.lstrip(chars)] *)
Fixpoint lstrip (chars s : string) : string :=
  match s with
  | EmptyString => EmptyString
  | String c s' => if char_in c chars then lstrip chars s' else s
  end.

(** [s.rstrip(chars)]: a character is dropped when it is in [chars] and
    nothing is kept after it. *)
Fixpoint rstrip (chars s : string) : string :=
  match s with
  | EmptyString => EmptyString
  | String c s' =>
      match rstrip chars s' with
      | EmptyString => if char_in c chars then EmptyString else String c EmptyString
      | r => String c r
      end
  end.

(** [s.strip(chars)] *)
Definition strip (chars s : string) : string := rstrip chars (lstrip chars s).

(** [s.translate(str.maketrans("", "", chars))]: delete the characters of
    [chars]. *)
Fixpoint remove_chars (chars s : string) : string :=
  match s with
  | EmptyString => EmptyString
  | String c s' =>
      if char_in c chars then remove_chars chars s'
      else String c (remove_chars chars s')
  end.

Definition upper_char (c : ascii) : ascii :=
  let n := nat_of_ascii c in
  if ((97 <=? n)%nat && (n <=? 122)%nat)%bool then ascii_of_nat (n - 32) else c.

(** [s.upper()] on ASCII text, where only the letters [a]..[z] change. *)
Fixpoint upper (s : string) : string :=
  match s with
  | EmptyString => EmptyString
  | String c s' => String (upper_char c) (upper s')
  end.

(** [s.split(sep)] for a one-character separator: never an empty list. *)
Fixpoint split (sep : ascii) (s : string) : list string :=
  match s with
  | EmptyString => [EmptyString]
  | String c s' =>
      if Ascii.eqb c sep then EmptyString :: split sep s'
      else match split sep s' with
           | p :: ps => String c p :: ps
           | [] => [String c EmptyString]
           end
  end.

(** [sep.join(parts)] *)
Fixpoint join (sep : string) (parts : list string) : string :=
  match parts with
  | [] => EmptyString
  | [p] => p
  | p :: ps => p +:+ sep +:+ join sep ps
  end.

(** [x in xs] for a list of strings *)
Definition str_in (x : string) (xs : list string) : bool :=
  existsb (String.eqb x) xs.

Definition first_char (s : string) : option ascii :=
  match s with EmptyString => None | String c _ => Some c end.

Fixpoint last_char (s : string) : option ascii :=
  match s with
  | EmptyString => None
  | String c EmptyString => Some c
  | String _ s' => last_char s'
  end.

(** The double quote. *)
Definition dquote_char : ascii := "034"%char.
Definition dquote : string := String dquote_char EmptyString.

(** The characters deleted by [normalized]: space, newline, tab, carriage
    return. *)
Definition blanks : string :=
  String " " (String "010" (String "009" (String "013" EmptyString))).

End PyStr.

(** ** Objects of the store *)

Definition addr := nat.
Bind Scope nat_scope with addr.

(** [sqlparse.tokens]: a token type is its path below the root [Token];
    [parent] drops the last component and the root has none. *)
Definition ttype := list string.

Definition ttype_parent (t : ttype) : option ttype :=
  match t with
  | [] => None
  | _ => Some (removelast t)
  end.

Definition ttype_eqb (a b : ttype) : bool := bool_decide (a = b).

Definition Name : ttype := ["Name"].
Definition Punctuation : ttype := ["Punctuation"].
Definition Wildcard : ttype := ["Wildcard"].
Definition Comment : ttype := ["Comment"].
Definition Number_Integer : ttype := ["Literal"; "Number"; "Integer"].
Definition Number_Float : ttype := ["Literal"; "Number"; "Float"].

(** [sqlparse.sql.Token], a leaf of the parse: [str(tok)] is [tok.value]. *)
Record RawToken := {
  tok_value : string;
  tok_is_keyword : bool;
  tok_ttype : ttype
}.

Record SQLToken := {
  position : Z;
  value : string;
  is_keyword : bool;
  is_name : bool;
  is_punctuation : bool;
  is_dot : bool;
  is_wildcard : bool;
  is_integer : bool;
  is_float : bool;
  is_comment : bool;
  is_left_parenthesis : bool;
  is_right_parenthesis : bool;
  last_keyword : option string;
  subquery_level : Z;
  next_token : option addr;
  previous_token : option addr;
  is_in_nested_function : bool;
  is_subquery_start : bool;
  is_subquery_end : bool;
  is_with_query_start : bool;
  is_with_query_end : bool;
  is_with_columns_start : bool;
  is_with_columns_end : bool;
  is_nested_function_start : bool;
  is_nested_function_end : bool;
  is_column_definition_start : bool;
  is_column_definition_end : bool
}.

(** The module-level [EmptyToken = SQLToken()] is the first object
    allocated when the module is loaded. *)
Definition EmptyToken : addr := 0%nat.

(** [_set_default_values]: assigns the fifteen data attributes. *)
Definition _set_default_values (self : SQLToken) : SQLToken :=
  {| position := position self;
     value := "";
     is_keyword := false;
     is_name := false;
     is_punctuation := false;
     is_dot := false;
     is_wildcard := false;
     is_integer := false;
     is_float := false;
     is_comment := false;
     is_left_parenthesis := false;
     is_right_parenthesis := false;
     last_keyword := None;
     subquery_level := 0;
     next_token := None;
     previous_token := None;
     is_in_nested_function := is_in_nested_function self;
     is_subquery_start := is_subquery_start self;
     is_subquery_end := is_subquery_end self;
     is_with_query_start := is_with_query_start self;
     is_with_query_end := is_with_query_end self;
     is_with_columns_start := is_with_columns_start self;
     is_with_columns_end := is_with_columns_end self;
     is_nested_function_start := is_nested_function_start self;
     is_nested_function_end := is_nested_function_end self;
     is_column_definition_start := is_column_definition_start self;
     is_column_definition_end := is_column_definition_end self |}.

(** [_set_default_parenthesis_status]: clears the eleven scope-role flags. *)
Definition _set_default_parenthesis_status (self : SQLToken) : SQLToken :=
  {| position := position self;
     value := value self;
     is_keyword := is_keyword self;
     is_name := is_name self;
     is_punctuation := is_punctuation self;
     is_dot := is_dot self;
     is_wildcard := is_wildcard self;
     is_integer := is_integer self;
     is_float := is_float self;
     is_comment := is_comment self;
     is_left_parenthesis := is_left_parenthesis self;
     is_right_parenthesis := is_right_parenthesis self;
     last_keyword := last_keyword self;
     subquery_level := subquery_level self;
     next_token := next_token self;
     previous_token := previous_token self;
     is_in_nested_function := false;
     is_subquery_start := false;
     is_subquery_end := false;
     is_with_query_start := false;
     is_with_query_end := false;
     is_with_columns_start := false;
     is_with_columns_end := false;
     is_nested_function_start := false;
     is_nested_function_end := false;
     is_column_definition_start := false;
     is_column_definition_end := false |}.

(** A new object has no attribute before [__init__] assigns it.  The
    record has a slot for each attribute, so [__init__] is run on a record
    [self] that stands for the new object: what its slots hold at first is
    never read.  [unassigned] fills every slot with a placeholder that no
    assignment of [__init__] writes. *)
Definition unassigned : SQLToken :=
  {| position := -2; value := "<unassigned>";
     is_keyword := true; is_name := true; is_punctuation := true;
     is_dot := true; is_wildcard := true; is_integer := true;
     is_float := true; is_comment := true;
     is_left_parenthesis := true; is_right_parenthesis := true;
     last_keyword := Some "<unassigned>"; subquery_level := -2;
     next_token := Some 1%nat; previous_token := Some 1%nat;
     is_in_nested_function := true;
     is_subquery_start := true; is_subquery_end := true;
     is_with_query_start := true; is_with_query_end := true;
     is_with_columns_start := true; is_with_columns_end := true;
     is_nested_function_start := true; is_nested_function_end := true;
     is_column_definition_start := true; is_column_definition_end := true |}.

(** [self.position = index] *)
Definition set_position (self : SQLToken) (index : Z) : SQLToken :=
  {| position := index;
     value := value self;
     is_keyword := is_keyword self;
     is_name := is_name self;
     is_punctuation := is_punctuation self;
     is_dot := is_dot self;
     is_wildcard := is_wildcard self;
     is_integer := is_integer self;
     is_float := is_float self;
     is_comment := is_comment self;
     is_left_parenthesis := is_left_parenthesis self;
     is_right_parenthesis := is_right_parenthesis self;
     last_keyword := last_keyword self;
     subquery_level := subquery_level self;
     next_token := next_token self;
     previous_token := previous_token self;
     is_in_nested_function := is_in_nested_function self;
     is_subquery_start := is_subquery_start self;
     is_subquery_end := is_subquery_end self;
     is_with_query_start := is_with_query_start self;
     is_with_query_end := is_with_query_end self;
     is_with_columns_start := is_with_columns_start self;
     is_with_columns_end := is_with_columns_end self;
     is_nested_function_start := is_nested_function_start self;
     is_nested_function_end := is_nested_function_end self;
     is_column_definition_start := is_column_definition_start self;
     is_column_definition_end := is_column_definition_end self |}.

(** The [else] branch of [__init__]: the attributes read off the raw token. *)
Definition set_from_raw (self : SQLToken) (tok : RawToken)
    (subquery_level0 : Z) (last_keyword0 : option string) : SQLToken :=
  {| position := position self;
     value := PyStr.strip PyStr.dquote (PyStr.strip "`" (tok_value tok));
     is_keyword :=
       tok_is_keyword tok
       || (bool_decide (ttype_parent (tok_ttype tok) = Some Name)
           && negb (ttype_eqb (tok_ttype tok) Name));
     is_name := ttype_eqb (tok_ttype tok) Name;
     is_punctuation := ttype_eqb (tok_ttype tok) Punctuation;
     is_dot := String.eqb (tok_value tok) ".";
     is_wildcard := ttype_eqb (tok_ttype tok) Wildcard;
     is_integer := ttype_eqb (tok_ttype tok) Number_Integer;
     is_float := ttype_eqb (tok_ttype tok) Number_Float;
     is_comment :=
       ttype_eqb (tok_ttype tok) Comment
       || bool_decide (ttype_parent (tok_ttype tok) = Some Comment);
     is_left_parenthesis := String.eqb (tok_value tok) "(";
     is_right_parenthesis := String.eqb (tok_value tok) ")";
     last_keyword := last_keyword0;
     subquery_level := subquery_level0;
     next_token := Some EmptyToken;
     previous_token := Some EmptyToken;
     is_in_nested_function := is_in_nested_function self;
     is_subquery_start := is_subquery_start self;
     is_subquery_end := is_subquery_end self;
     is_with_query_start := is_with_query_start self;
     is_with_query_end := is_with_query_end self;
     is_with_columns_start := is_with_columns_start self;
     is_with_columns_end := is_with_columns_end self;
     is_nested_function_start := is_nested_function_start self;
     is_nested_function_end := is_nested_function_end self;
     is_column_definition_start := is_column_definition_start self;
     is_column_definition_end := is_column_definition_end self |}.

(** The body of [__init__(self, tok, index, subquery_level, last_keyword)]
    run on the new object [self]. *)
Definition SQLToken_init_on (self : SQLToken) (tok : option RawToken)
    (index : Z) (subquery_level0 : Z) (last_keyword0 : option string)
    : SQLToken :=
  let self := set_position self index in
  let self :=
    match tok with
    | None => _set_default_values self
    | Some tok => set_from_raw self tok subquery_level0 last_keyword0
    end in
  _set_default_parenthesis_status self.

(** [SQLToken(tok, index, subquery_level, last_keyword)]: [__init__] on a
    new object. *)
Definition SQLToken_init (tok : option RawToken) (index : Z)
    (subquery_level0 : Z) (last_keyword0 : option string) : SQLToken :=
  SQLToken_init_on unassigned tok index subquery_level0 last_keyword0.

(** [SQLToken()] with every default: [index = -1], [subquery_level = 0],
    [last_keyword = None]. *)
Definition sentinel : SQLToken := SQLToken_init None (-1) 0 None.

(** The store: objects addressed by allocation order. *)
Definition heap := list SQLToken.

(** Calling the class allocates the object. *)
Definition new_SQLToken (h : heap) (tok : option RawToken) (index : Z)
    (subquery_level0 : Z) (last_keyword0 : option string) : heap * addr :=
  (h ++ [SQLToken_init tok index subquery_level0 last_keyword0],
   List.length h).

(** The store after the module is loaded: [EmptyToken = SQLToken()]. *)
Definition module_heap : heap := fst (new_SQLToken [] None (-1) 0 None).

(** ** Properties that read the token alone *)

(** [__str__] *)
Definition str (self : SQLToken) : string := PyStr.strip PyStr.dquote (value self).

(** [normalized] *)
Definition normalized (self : SQLToken) : string :=
  PyStr.upper (PyStr.remove_chars PyStr.blanks (value self)).

(** [last_keyword_normalized]: [None] and the empty string are both falsy. *)
Definition last_keyword_normalized (self : SQLToken) : string :=
  match last_keyword self with
  | Some k =>
      if String.eqb k "" then ""
      else PyStr.upper (PyStr.remove_chars PyStr.blanks k)
  | None => ""
  end.

(** ** Outcomes of a call *)

Inductive exn :=
| AssertionError
| AttributeError
| RecursionError
| ValueError (msg : string).

(** [Dangling] is a read at an address the store does not hold (no Python
    reference does that); [OutOfFuel] is a loop cut short by the bound. *)
Inductive result (A : Type) :=
| Ok (a : A)
| Raise (e : exn)
| Dangling
| OutOfFuel.

Arguments Ok {A} a.
Arguments Raise {A} e.
Arguments Dangling {A}.
Arguments OutOfFuel {A}.

#[global] Instance result_bind : MBind result := fun A B k r =>
  match r with
  | Ok a => k a
  | Raise e => Raise e
  | Dangling => Dangling
  | OutOfFuel => OutOfFuel
  end.

Definition deref (h : heap) (a : addr) : result SQLToken :=
  match h !! a with
  | Some t => Ok t
  | None => Dangling
  end.

(** Reading an attribute of a link: [None.attr] raises [AttributeError]. *)
Definition through (link : option addr) : result addr :=
  match link with
  | Some a => Ok a
  | None => Raise AttributeError
  end.

(** ** Values compared by [find_nearest_token] *)

Inductive PyVal :=
| VStr (s : string)
| VBool (b : bool)
| VInt (z : Z)
| VNone
| VTok (a : addr).

Definition as_number (v : PyVal) : option Z :=
  match v with
  | VBool b => Some (if b then 1 else 0)
  | VInt z => Some z
  | _ => None
  end.

(** Python [==]: [bool] is a subtype of [int]; token objects compare by
    identity, the class defining no [__eq__]. *)
Definition py_eqb (a b : PyVal) : bool :=
  match a, b with
  | VStr s, VStr t => String.eqb s t
  | VNone, VNone => true
  | VTok x, VTok y => Nat.eqb x y
  | _, _ =>
      match as_number a, as_number b with
      | Some x, Some y => Z.eqb x y
      | _, _ => false
      end
  end.

(** [x in values] *)
Definition py_in (x : PyVal) (values : list PyVal) : bool :=
  existsb (py_eqb x) values.

(** The [value] argument: one value, or a list of them. *)
Inductive Target :=
| Single (v : PyVal)
| Several (vs : list PyVal).

(** [if not isinstance(value, list): value = [value]] *)
Definition as_list (value0 : Target) : list PyVal :=
  match value0 with
  | Single v => [v]
  | Several vs => vs
  end.

(** The names [value_attribute] can select: an attribute assigned by
    [__init__], or a property of the class. *)
Inductive Field :=
| F_position | F_value
| F_is_keyword | F_is_name | F_is_punctuation | F_is_dot | F_is_wildcard
| F_is_integer | F_is_float | F_is_comment
| F_is_left_parenthesis | F_is_right_parenthesis
| F_last_keyword | F_subquery_level | F_next_token | F_previous_token
| F_is_in_nested_function
| F_is_subquery_start | F_is_subquery_end
| F_is_with_query_start | F_is_with_query_end
| F_is_with_columns_start | F_is_with_columns_end
| F_is_nested_function_start | F_is_nested_function_end
| F_is_column_definition_start | F_is_column_definition_end.

Inductive Property :=
| P_normalized | P_stringified_token | P_last_keyword_normalized
| P_left_expanded | P_is_in_parenthesis | P_is_alias_without_as
| P_is_in_with_columns.

Inductive Attribute :=
| AField (f : Field)
| AProperty (p : Property).

Definition of_link (l : option addr) : PyVal :=
  match l with Some a => VTok a | None => VNone end.

Definition of_opt_str (s : option string) : PyVal :=
  match s with Some s => VStr s | None => VNone end.

(** Reading a stored attribute. *)
Definition field_value (t : SQLToken) (f : Field) : PyVal :=
  match f with
  | F_position => VInt (position t)
  | F_value => VStr (value t)
  | F_is_keyword => VBool (is_keyword t)
  | F_is_name => VBool (is_name t)
  | F_is_punctuation => VBool (is_punctuation t)
  | F_is_dot => VBool (is_dot t)
  | F_is_wildcard => VBool (is_wildcard t)
  | F_is_integer => VBool (is_integer t)
  | F_is_float => VBool (is_float t)
  | F_is_comment => VBool (is_comment t)
  | F_is_left_parenthesis => VBool (is_left_parenthesis t)
  | F_is_right_parenthesis => VBool (is_right_parenthesis t)
  | F_last_keyword => of_opt_str (last_keyword t)
  | F_subquery_level => VInt (subquery_level t)
  | F_next_token => of_link (next_token t)
  | F_previous_token => of_link (previous_token t)
  | F_is_in_nested_function => VBool (is_in_nested_function t)
  | F_is_subquery_start => VBool (is_subquery_start t)
  | F_is_subquery_end => VBool (is_subquery_end t)
  | F_is_with_query_start => VBool (is_with_query_start t)
  | F_is_with_query_end => VBool (is_with_query_end t)
  | F_is_with_columns_start => VBool (is_with_columns_start t)
  | F_is_with_columns_end => VBool (is_with_columns_end t)
  | F_is_nested_function_start => VBool (is_nested_function_start t)
  | F_is_nested_function_end => VBool (is_nested_function_end t)
  | F_is_column_definition_start => VBool (is_column_definition_start t)
  | F_is_column_definition_end => VBool (is_column_definition_end t)
  end.

(** ** Traversal *)

(** [get_nth_previous(level)] called with [frames] Python frames to spare:
    each call of the recursion takes one, and the interpreter raises
    [RecursionError] when none is left. *)
Fixpoint get_nth_previous_rec (frames : nat) (h : heap) (self : addr)
    (level : Z) : result addr :=
  match frames with
  | O => Raise RecursionError
  | S frames' =>
      if level <? 1 then Raise AssertionError
      else
        t ← deref h self;
        match previous_token t with
        | Some p =>
            if 1 <? level then get_nth_previous_rec frames' h p (level - 1)
            else Ok p
        | None => Ok EmptyToken
        end
  end.

(** [sys.getrecursionlimit()] as the interpreter sets it: the frames a call
    made from the top level has; a caller deeper in the stack has fewer. *)
Definition recursion_limit : nat := 1000.

Definition get_nth_previous (h : heap) (self : addr) (level : Z) : result addr :=
  get_nth_previous_rec recursion_limit h self level.

(** [attribute = "previous_token" if direction == "left" else "next_token"] *)
Definition link_of (direction : string) : SQLToken -> option addr :=
  if String.eqb direction "left" then previous_token else next_token.

(** The [while] loop of [find_nearest_token]; [get n] is
    [getattr(n, value_attribute)]. *)
Fixpoint find_nearest_loop (get : addr -> result PyVal)
    (link : SQLToken -> option addr) (values : list PyVal)
    (h : heap) (fuel : nat) (token : addr) : result addr :=
  match fuel with
  | O => OutOfFuel
  | S fuel' =>
      t ← deref h token;
      match link t with
      | Some n =>
          tok_value ← get n;
          if py_in tok_value values then Ok n
          else find_nearest_loop get link values h fuel' n
      | None => Ok EmptyToken
      end
  end.

(** [find_nearest_token] with the default [value_attribute="value"], as the
    properties of the class call it. *)
Definition find_nearest_by_value (fuel : nat) (h : heap) (self : addr)
    (value0 : Target) (direction : string) : result addr :=
  find_nearest_loop (fun n => t ← deref h n; Ok (VStr (value t)))
    (link_of direction) (as_list value0) h fuel self.

(** ** Properties that read the neighbours *)

(** The loop of [left_expanded]. *)
Fixpoint left_expanded_loop (fuel : nat) (h : heap) (token : addr)
    (value0 : string) : result string :=
  match fuel with
  | O => OutOfFuel
  | S fuel' =>
      t ← deref h token;
      match previous_token t with
      | None => Ok value0
      | Some p =>
          tp ← deref h p;
          if is_dot tp then
            p2 ← get_nth_previous h token 2;
            tp2 ← deref h p2;
            left_expanded_loop fuel' h p2
              (if is_name tp2 then str tp2 +:+ "." +:+ value0 else value0)
          else Ok value0
      end
  end.

Definition left_expanded (fuel : nat) (h : heap) (self : addr) : result string :=
  t ← deref h self;
  v ← left_expanded_loop fuel h self (str t);
  Ok (PyStr.strip "`" v).

Definition is_in_parenthesis (fuel : nat) (h : heap) (self : addr) : result bool :=
  left_parenthesis ← find_nearest_by_value fuel h self (Single (VStr "(")) "left";
  right_parenthesis ← find_nearest_by_value fuel h self (Single (VStr ")")) "right";
  tl ← deref h left_parenthesis;
  tr ← deref h right_parenthesis;
  Ok (negb (String.eqb (value tl) "") && negb (String.eqb (value tr) "")).

Definition is_alias_without_as (h : heap) (self : addr) : result bool :=
  t ← deref h self;
  n ← through (next_token t);
  tn ← deref h n;
  if PyStr.str_in (normalized tn) [","; "FROM"] then
    p ← through (previous_token t);
    tp ← deref h p;
    if negb (PyStr.str_in (normalized tp) [","; "."; "("; "SELECT"]) then
      if String.eqb (last_keyword_normalized t) "SELECT"
      then Ok (negb (is_comment tp))
      else Ok false
    else Ok false
  else Ok false.

Definition is_in_with_columns (fuel : nat) (h : heap) (self : addr) : result bool :=
  l ← find_nearest_by_value fuel h self (Single (VStr "(")) "left";
  tl ← deref h l;
  if is_with_columns_start tl then
    r ← find_nearest_by_value fuel h self (Single (VStr ")")) "right";
    tr ← deref h r;
    Ok (is_with_columns_end tr)
  else Ok false.

(** [table_prefixed_column(table_aliases)] *)
Definition table_prefixed_column (fuel : nat) (h : heap) (self : addr)
    (table_aliases : gmap string string) : result string :=
  value0 ← left_expanded fuel h self;
  if PyStr.char_in "." value0 then
    let parts := PyStr.split "." value0 in
    if (3 <? List.length parts)%nat
    then Raise (ValueError ("Wrong columns name: " +:+ value0))
    else
      match parts with
      | p0 :: rest =>
          Ok (PyStr.join "." (default p0 (table_aliases !! p0) :: rest))
      | [] => Ok (PyStr.join "." [])
      end
  else Ok value0.

Section Token.

(** [sql_metadata.keywords_lists.FUNCTIONS_IGNORED]: the module that defines
    the list is not part of the sources at hand, so its content is left
    open. *)
Variable FUNCTIONS_IGNORED : list string.

(** [stringified_token] *)
Definition stringified_token (h : heap) (self : addr) : result string :=
  t ← deref h self;
  match previous_token t with
  | Some p =>
      tp ← deref h p;
      if PyStr.str_in (normalized t) [")"; "."; ","]
         || PyStr.str_in (normalized tp) ["("; "."]
         || (is_left_parenthesis t
             && PyStr.str_in (normalized tp) FUNCTIONS_IGNORED)
      then Ok (str t)
      else Ok (" " +:+ str t)
  | None => Ok (str t)
  end.

(** Evaluating a property of the object at [a]. *)
Definition property_value (fuel : nat) (h : heap) (a : addr) (p : Property)
    : result PyVal :=
  match p with
  | P_normalized => t ← deref h a; Ok (VStr (normalized t))
  | P_stringified_token => s ← stringified_token h a; Ok (VStr s)
  | P_last_keyword_normalized =>
      t ← deref h a; Ok (VStr (last_keyword_normalized t))
  | P_left_expanded => s ← left_expanded fuel h a; Ok (VStr s)
  | P_is_in_parenthesis => b ← is_in_parenthesis fuel h a; Ok (VBool b)
  | P_is_alias_without_as => b ← is_alias_without_as h a; Ok (VBool b)
  | P_is_in_with_columns => b ← is_in_with_columns fuel h a; Ok (VBool b)
  end.

(** [getattr(a, value_attribute)] *)
Definition getattr (fuel : nat) (h : heap) (a : addr) (attr : Attribute)
    : result PyVal :=
  match attr with
  | AField f => t ← deref h a; Ok (field_value t f)
  | AProperty p => property_value fuel h a p
  end.

(** [find_nearest_token(value, direction, value_attribute)] *)
Definition find_nearest_token (fuel : nat) (h : heap) (self : addr)
    (value0 : Target) (direction : string) (value_attribute : Attribute)
    : result addr :=
  find_nearest_loop (fun n => getattr fuel h n value_attribute)
    (link_of direction) (as_list value0) h fuel self.

End Token.

(** ** Chains *)

(** [chain h link a l]: following [link] from [a] visits the objects [l]
    in turn and stops at an object whose link is absent. *)
Inductive chain (h : heap) (link : SQLToken -> option addr)
    : addr -> list addr -> Prop :=
| chain_end a t :
    h !! a = Some t -> link t = None -> chain h link a []
| chain_step a t n l :
    h !! a = Some t -> link t = Some n -> chain h link n l ->
    chain h link a (n :: l).

(** The chain from [a] ends in the sentinel, which the store holds at
    [EmptyToken]. *)
Definition sentinel_terminated (h : heap) (link : SQLToken -> option addr)
    (a : addr) (l : list addr) : Prop :=
  chain h link a l /\ last (a :: l) = Some EmptyToken
  /\ h !! EmptyToken = Some sentinel.

(** The token the walk is specified to return: the first of [l] that
    [matches], the sentinel when there is none. *)
Definition first_match (matches : addr -> bool) (l : list addr) : addr :=
  default EmptyToken (List.find matches l).

(** [tok_value in value] for the attribute read at [n]. *)
Definition attr_matches (get : addr -> result PyVal) (values : list PyVal)
    (n : addr) : bool :=
  match get n with
  | Ok v => py_in v values
  | _ => false
  end.

(** ** A store holding one token sequence *)

(** The two assignments of the stream builder, [t.previous_token = p] and
    [t.next_token = n]. *)
Definition set_links (t : SQLToken) (p n : option addr) : SQLToken :=
  {| position := position t;
     value := value t;
     is_keyword := is_keyword t;
     is_name := is_name t;
     is_punctuation := is_punctuation t;
     is_dot := is_dot t;
     is_wildcard := is_wildcard t;
     is_integer := is_integer t;
     is_float := is_float t;
     is_comment := is_comment t;
     is_left_parenthesis := is_left_parenthesis t;
     is_right_parenthesis := is_right_parenthesis t;
     last_keyword := last_keyword t;
     subquery_level := subquery_level t;
     next_token := n;
     previous_token := p;
     is_in_nested_function := is_in_nested_function t;
     is_subquery_start := is_subquery_start t;
     is_subquery_end := is_subquery_end t;
     is_with_query_start := is_with_query_start t;
     is_with_query_end := is_with_query_end t;
     is_with_columns_start := is_with_columns_start t;
     is_with_columns_end := is_with_columns_end t;
     is_nested_function_start := is_nested_function_start t;
     is_nested_function_end := is_nested_function_end t;
     is_column_definition_start := is_column_definition_start t;
     is_column_definition_end := is_column_definition_end t |}.

(** Modelled from the spec: the stream builder, which is not among the
    sources, wires [previous_token] and [next_token] into one doubly linked
    chain ended by the sentinel on both sides.
    Tokens [i], [i+1], ... of a sequence of [n] tokens, stored from address
    [i] on: token [i] is preceded by the object at [i-1] (the sentinel for
    the first one) and followed by the one at [i+1] (the sentinel for the
    last one). *)
Fixpoint wire (n : nat) (i : nat) (toks : list SQLToken) : list SQLToken :=
  match toks with
  | [] => []
  | t :: toks' =>
      set_links t (Some (i - 1)%nat)
        (Some (if (i <? n)%nat then S i else EmptyToken))
      :: wire n (S i) toks'
  end.

(** The store after the module is loaded and the tokens of one statement
    are built and linked in stream order. *)
Definition chain_heap (toks : list SQLToken) : heap :=
  module_heap ++ wire (List.length toks) 1 toks.

(** A token built from a lexer token of type [ty] and text [v]. *)
Definition token_of (v : string) (kw : bool) (ty : ttype) (index : Z)
    (last_keyword0 : option string) : SQLToken :=
  SQLToken_init
    (Some {| tok_value := v; tok_is_keyword := kw; tok_ttype := ty |})
    index 0 last_keyword0.

Definition Keyword : ttype := ["Keyword"].
Definition Keyword_DML : ttype := ["Keyword"; "DML"].

(** ** Notions used by the statements *)

(** [s] neither begins nor ends with a character of [chars]. *)
Definition no_leading_trailing (chars s : string) : Prop :=
  (forall c, PyStr.first_char s = Some c -> PyStr.char_in c chars = false)
  /\ (forall c, PyStr.last_char s = Some c -> PyStr.char_in c chars = false).




(** The walk of [find_nearest_token] over the tokens [l] it meets, in
    order: the first whose attribute is among [values]; [get] may raise. *)
Fixpoint walk (get : addr -> result PyVal) (values : list PyVal)
    (l : list addr) : result addr :=
  match l with
  | [] => Ok EmptyToken
  | n :: l' =>
      v ← get n;
      if py_in v values then Ok n else walk get values l'
  end.

(** Reading [attr] raises on no token of [l]: so it is for every stored
    attribute. *)
Definition readable_on (FUNCTIONS_IGNORED : list string) (fuel : nat)
    (h : heap) (attr : Attribute) (l : list addr) : Prop :=
  match attr with
  | AField _ => True
  | AProperty p =>
      forall n, n ∈ l ->
        exists v, property_value FUNCTIONS_IGNORED fuel h n p = Ok v
  end.

(** [left_expanded] over the predecessors [toks] of a token, nearest
    first: while the nearest is a dot, the token two hops back is taken as
    the new centre, and ["<name>."] is put in front when it is a name. *)
Fixpoint expand (toks : list SQLToken) (value0 : string) : string :=
  match toks with
  | d :: p :: rest =>
      if is_dot d then
        expand rest (if is_name p then str p +:+ "." +:+ value0 else value0)
      else value0
  | _ => value0
  end.

(** The objects at the addresses [l]. *)
Definition objects (h : heap) (l : list addr) (ts : list SQLToken) : Prop :=
  Forall2 (fun n t => h !! n = Some t) l ts.

(** The query rebuilt from its tokens: the [stringified_token] of each,
    concatenated in order. *)
Fixpoint rebuild (FUNCTIONS_IGNORED : list string) (h : heap)
    (tokens : list addr) : result string :=
  match tokens with
  | [] => Ok ""
  | a :: rest =>
      s ← stringified_token FUNCTIONS_IGNORED h a;
      r ← rebuild FUNCTIONS_IGNORED h rest;
      Ok (s +:+ r)
  end.

(** The addresses before [S k] in a built statement, nearest first, down to
    the sentinel: [k; ...; 1; 0]. *)
Fixpoint down (k : nat) : list addr :=
  match k with
  | O => [EmptyToken]
  | S k' => k :: down k'
  end.

(** The addresses after [n - m] in a statement of [n] tokens, nearest
    first, and then the sentinel: [n - m + 1; ...; n; 0]. *)
Fixpoint up (n m : nat) : list addr :=
  match m with
  | O => [EmptyToken]
  | S m' => (n - m')%nat :: up n m'
  end.

(** ** The token sequences of the scenarios *)

(** The raw name [`a`] written between double quotes, as a lexer token. *)
Definition quoted_backticked : RawToken :=
  {| tok_value := PyStr.dquote +:+ "`a`" +:+ PyStr.dquote;
     tok_is_keyword := false;
     tok_ttype := ["Literal"; "String"; "Symbol"] |}.


(** One token, built from the lexer token ["`a`"]. *)
Definition heap_quoted : heap :=
  chain_heap [SQLToken_init (Some quoted_backticked) 0 0 None].

(** [a.b.c]: three names joined by two dots, stored at addresses 1 to 5. *)
Definition heap_a_b_c : heap :=
  chain_heap
    [ token_of "a" false Name 0 None;
      token_of "." false Punctuation 1 None;
      token_of "b" false Name 2 None;
      token_of "." false Punctuation 3 None;
      token_of "c" false Name 4 None ].

(** [al.col] *)
Definition heap_al_col : heap :=
  chain_heap
    [ token_of "al" false Name 0 None;
      token_of "." false Punctuation 1 None;
      token_of "col" false Name 2 None ].

(** [a.b.c.d] *)
Definition heap_a_b_c_d : heap :=
  chain_heap
    [ token_of "a" false Name 0 None;
      token_of "." false Punctuation 1 None;
      token_of "b" false Name 2 None;
      token_of "." false Punctuation 3 None;
      token_of "c" false Name 4 None;
      token_of "." false Punctuation 5 None;
      token_of "d" false Name 6 None ].

(** The single name [al]. *)
Definition heap_al : heap := chain_heap [ token_of "al" false Name 0 None ].

(** [SELECT col alias FROM t] *)
Definition heap_select_alias : heap :=
  chain_heap
    [ token_of "SELECT" true Keyword_DML 0 None;
      token_of "col" false Name 1 (Some "SELECT");
      token_of "alias" false Name 2 (Some "SELECT");
      token_of "FROM" true Keyword 3 (Some "SELECT");
      token_of "t" false Name 4 (Some "FROM") ].

(** [SELECT a,b] *)
Definition heap_select_a_b : heap :=
  chain_heap
    [ token_of "SELECT" true Keyword_DML 0 None;
      token_of "a" false Name 1 (Some "SELECT");
      token_of "," false Punctuation 2 (Some "SELECT");
      token_of "b" false Name 3 (Some "SELECT") ].

(** ** Notions used by the further properties *)

(** The object at [n] has the value [s]. *)
Definition has_value_at (h : heap) (s : string) (n : addr) : bool :=
  match h !! n with
  | Some t => String.eqb (value t) s
  | None => false
  end.

(** Stores reached from the loaded module by building tokens from lexer
    tokens, before any link is rewired. *)
Inductive built_heap : heap -> Prop :=
| built_module : built_heap module_heap
| built_new h tok index lvl kw :
    built_heap h ->
    built_heap (fst (new_SQLToken h (Some tok) index lvl kw)).

(** The predecessors of a qualified name, nearest first: each qualifier
    [q] comes after its dot [d]. *)
Definition qualifiers (pairs : list (SQLToken * SQLToken)) : list SQLToken :=
  flat_map (fun dq => [fst dq; snd dq]) pairs.

(** How many of the flags [bs] are set. *)
Definition count_true (bs : list bool) : nat :=
  List.length (List.filter (fun b => b) bs).

(** [f(x)], a call; no scope tag is set. *)
Definition heap_call : heap :=
  chain_heap
    [ token_of "f" false Name 0 None;
      token_of "(" false Punctuation 1 None;
      token_of "x" false Name 2 None;
      token_of ")" false Punctuation 3 None ].

(** The store after one token is built from the lexer token [a]. *)
Definition heap_one_built : heap :=
  fst (new_SQLToken module_heap
         (Some {| tok_value := "a"; tok_is_keyword := false;
                  tok_ttype := Name |}) 0 0 None).

(** The object at [n], for an address the store holds. *)
Definition object_at (h : heap) (n : addr) : SQLToken :=
  default sentinel (h !! n).

(** How many times the character [c] occurs in [s]. *)
Fixpoint count_char (c : ascii) (s : string) : nat :=
  match s with
  | EmptyString => O
  | String d s' => ((if Ascii.eqb c d then 1 else 0) + count_char c s')%nat
  end.

(** The names among the qualifiers [pairs], outermost first. *)
Definition qualifier_names (pairs : list (SQLToken * SQLToken)) : list string :=
  rev (map str (List.filter is_name (map snd pairs))).

(** [a."b".c]: the middle segment, between double quotes, is a symbol of
    the lexer, not a name. *)
Definition heap_a_symbol_c : heap :=
  chain_heap
    [ token_of "a" false Name 0 None;
      token_of "." false Punctuation 1 None;
      token_of (PyStr.dquote +:+ "b" +:+ PyStr.dquote) false
        ["Literal"; "String"; "Symbol"] 2 None;
      token_of "." false Punctuation 3 None;
      token_of "c" false Name 4 None ].



(** A token with a next token and no previous one, stored after the
    sentinel: its next token is the sentinel. *)
Definition heap_no_previous : heap :=
  module_heap
  ++ [set_links (token_of "x" false Name 0 (Some "SELECT")) None
        (Some EmptyToken)].

(** [tok_value in value] for the stored attribute [f] of the object at
    [n]. *)
Definition field_matches (h : heap) (f : Field) (values : list PyVal)
    (n : addr) : bool :=
  match h !! n with
  | Some t => py_in (field_value t f) values
  | None => false
  end.

(** * Verification *)

(** Running the binds of a call whose outcomes are known. *)
Ltac exec := repeat (unfold mbind, result_bind; cbn beta iota).

(** ** Strings *)

Lemma char_in_single c d :
  PyStr.char_in c (String d EmptyString) = true <-> c = d.
Proof.
  unfold PyStr.char_in; simpl. rewrite orb_false_r. apply Ascii.eqb_eq.
Qed.

Lemma lstrip_first chars s c :
  PyStr.first_char (PyStr.lstrip chars s) = Some c ->
  PyStr.char_in c chars = false.
Proof.
  induction s as [|d s IH]; simpl; [discriminate|].
  destruct (PyStr.char_in d chars) eqn:E; [exact IH|].
  simpl. intros [= <-]. exact E.
Qed.

Lemma lstrip_id chars s :
  (forall c, PyStr.first_char s = Some c -> PyStr.char_in c chars = false) ->
  PyStr.lstrip chars s = s.
Proof.
  destruct s as [|d s]; simpl; [reflexivity|].
  intros H. now rewrite (H d eq_refl).
Qed.

Lemma lstrip_last chars s c :
  PyStr.last_char (PyStr.lstrip chars s) = Some c -> PyStr.last_char s = Some c.
Proof.
  induction s as [|d s IH]; simpl; [discriminate|].
  destruct (PyStr.char_in d chars); [|intros H; exact H].
  intros H. specialize (IH H). destruct s; [discriminate|exact IH].
Qed.

Lemma rstrip_last chars s c :
  PyStr.last_char (PyStr.rstrip chars s) = Some c ->
  PyStr.char_in c chars = false.
Proof.
  induction s as [|d s IH]; simpl; [discriminate|].
  destruct (PyStr.rstrip chars s) as [|e r] eqn:E.
  - destruct (PyStr.char_in d chars) eqn:Ed; simpl; [discriminate|].
    intros [= <-]. exact Ed.
  - intros H. apply IH. exact H.
Qed.

Lemma rstrip_first chars s c :
  PyStr.first_char (PyStr.rstrip chars s) = Some c -> PyStr.first_char s = Some c.
Proof.
  destruct s as [|d s]; simpl; [discriminate|].
  destruct (PyStr.rstrip chars s); [destruct (PyStr.char_in d chars)|];
    simpl; congruence.
Qed.

Lemma rstrip_id chars s :
  (forall c, PyStr.last_char s = Some c -> PyStr.char_in c chars = false) ->
  PyStr.rstrip chars s = s.
Proof.
  induction s as [|d s IH]; simpl; [reflexivity|].
  intros H. destruct s as [|e s].
  - simpl. now rewrite (H d eq_refl).
  - rewrite IH by exact H. reflexivity.
Qed.

Lemma strip_no_leading_trailing chars s :
  no_leading_trailing chars (PyStr.strip chars s).
Proof.
  split; intros c H.
  - apply rstrip_first in H. now apply lstrip_first in H.
  - now apply rstrip_last in H.
Qed.

Lemma strip_id chars s :
  no_leading_trailing chars s -> PyStr.strip chars s = s.
Proof.
  intros [Hf Hl]. unfold PyStr.strip.
  rewrite (lstrip_id _ _ Hf). now apply rstrip_id.
Qed.

(** Stripping twice is stripping once. *)
Lemma strip_idempotent chars s :
  PyStr.strip chars (PyStr.strip chars s) = PyStr.strip chars s.
Proof. apply strip_id, strip_no_leading_trailing. Qed.

Lemma strip_first_kept chars s c :
  PyStr.first_char (PyStr.strip chars s) = Some c ->
  PyStr.first_char s = Some c \/ exists d, PyStr.first_char s = Some d /\ PyStr.char_in d chars = true.
Proof.
  unfold PyStr.strip. intros H. apply rstrip_first in H.
  destruct s as [|d s]; simpl in *; [discriminate|].
  destruct (PyStr.char_in d chars) eqn:E; [right; eauto|left; exact H].
Qed.

Lemma strip_last_kept chars s c :
  PyStr.last_char (PyStr.strip chars s) = Some c ->
  PyStr.last_char s = Some c \/ exists d, PyStr.last_char s = Some d /\ PyStr.char_in d chars = true.
Proof.
  unfold PyStr.strip. intros H.
  destruct (PyStr.last_char (PyStr.lstrip chars s)) as [d|] eqn:E.
  - pose proof (lstrip_last _ _ _ E) as Hs.
    destruct (PyStr.char_in d chars) eqn:Ed; [right; eauto|].
    rewrite rstrip_id in H; [left; congruence|].
    intros c' Hc'. congruence.
  - rewrite rstrip_id in H; congruence.
Qed.

Lemma upper_char_blank c :
  PyStr.char_in (PyStr.upper_char c) PyStr.blanks = PyStr.char_in c PyStr.blanks.
Proof.
  destruct c as [[] [] [] [] [] [] [] []]; reflexivity.
Qed.



Lemma remove_chars_upper chars s :
  (forall c, PyStr.char_in (PyStr.upper_char c) chars = PyStr.char_in c chars) ->
  PyStr.remove_chars chars (PyStr.upper s)
  = PyStr.upper (PyStr.remove_chars chars s).
Proof.
  intros H. induction s as [|c s IH]; simpl; [reflexivity|].
  rewrite H. destruct (PyStr.char_in c chars); simpl; now rewrite IH.
Qed.

Lemma remove_chars_twice a b ab s :
  (forall c, PyStr.char_in c ab = PyStr.char_in c a || PyStr.char_in c b) ->
  PyStr.remove_chars b (PyStr.remove_chars a s) = PyStr.remove_chars ab s.
Proof.
  intros H. induction s as [|c s IH]; simpl; [reflexivity|].
  rewrite H. destruct (PyStr.char_in c a); simpl; [exact IH|].
  destruct (PyStr.char_in c b); simpl; now rewrite IH.
Qed.


(** ** Construction *)

(** C1.  Whatever the new object holds before [__init__] runs, a token
    built from a lexer token has both links set to the sentinel
    [EmptyToken], and a link of a built token is absent exactly when no
    lexer token was given; [__init__] assigns every attribute, reading none
    of the object it is given.  The token built with no argument, which the
    module stores at [EmptyToken], has absent links, the empty value, every
    classification and scope-role flag false, [subquery_level = 0] and no
    last keyword, so that [last_keyword_normalized] is empty. *)
Theorem init_links_and_sentinel :
  (forall self tok index lvl kw,
     previous_token (SQLToken_init_on self (Some tok) index lvl kw)
     = Some EmptyToken
     /\ next_token (SQLToken_init_on self (Some tok) index lvl kw)
        = Some EmptyToken)
  /\ (forall self tok index lvl kw,
        SQLToken_init_on self tok index lvl kw = SQLToken_init tok index lvl kw)
  /\ (forall h tok index lvl kw,
        fst (new_SQLToken h (Some tok) index lvl kw)
          !! snd (new_SQLToken h (Some tok) index lvl kw)
        = Some (SQLToken_init (Some tok) index lvl kw))
  /\ (forall self tok index lvl kw,
        (previous_token (SQLToken_init_on self tok index lvl kw) = None
         <-> tok = None)
        /\ (next_token (SQLToken_init_on self tok index lvl kw) = None
            <-> tok = None))
  /\ module_heap !! EmptyToken = Some sentinel
  /\ (forall self f,
        field_value (SQLToken_init_on self None (-1) 0 None) f =
        match f with
        | F_position => VInt (-1)
        | F_value => VStr ""
        | F_subquery_level => VInt 0
        | F_last_keyword | F_next_token | F_previous_token => VNone
        | _ => VBool false
        end)
  /\ sentinel = SQLToken_init_on unassigned None (-1) 0 None
  /\ last_keyword_normalized sentinel = "".
Proof.
  split; [intros; split; reflexivity|].
  split; [intros self [tok|] index lvl kw; reflexivity|].
  split.
  { intros h tok index lvl kw. unfold new_SQLToken, heap in *. cbn [fst snd].
    apply list_lookup_middle. reflexivity. }
  split.
  { intros self [tok|] index lvl kw; split; split; intros H;
      first [discriminate H | reflexivity]. }
  split; [reflexivity|].
  split; [|split; reflexivity].
  intros self f; destruct f; reflexivity.
Qed.

(** C4, counterexample.  The lexer token ["`a`"] (a back-quoted name
    between double quotes) is stored with value [`a`]: the back quotes,
    out of reach while the double quotes surround them, are left in. *)
Lemma value_keeps_backticks :
  value (SQLToken_init (Some quoted_backticked) 0 0 None) = "`a`"
  /\ ~ no_leading_trailing ("`" +:+ PyStr.dquote) (value (SQLToken_init (Some quoted_backticked) 0 0 None)).
Proof.
  split; [reflexivity|].
  intros [H _]. specialize (H "`"%char eq_refl). discriminate.
Qed.

(** C4, amended.  The stored value is the raw text with the surrounding
    back quotes stripped and then the surrounding double quotes stripped,
    once each.  It never begins or ends with a double quote; it begins
    (ends) with a back quote only when the raw text, its back quotes
    stripped, begins (ends) with a double quote. *)
Theorem value_stripped tok index lvl kw :
  let raw := PyStr.strip "`" (tok_value tok) in
  let v := value (SQLToken_init (Some tok) index lvl kw) in
  v = PyStr.strip PyStr.dquote raw
  /\ no_leading_trailing PyStr.dquote v
  /\ (PyStr.first_char v <> Some "`"%char \/ PyStr.first_char raw = Some PyStr.dquote_char)
  /\ (PyStr.last_char v <> Some "`"%char \/ PyStr.last_char raw = Some PyStr.dquote_char).
Proof.
  intros raw v. subst v. cbn [SQLToken_init SQLToken_init_on set_from_raw value
    _set_default_parenthesis_status]. fold raw.
  pose proof (strip_no_leading_trailing "`" (tok_value tok)) as [Hf Hl].
  fold raw in Hf, Hl.
  split; [reflexivity|]. split; [apply strip_no_leading_trailing|]. split.
  - destruct (PyStr.first_char (PyStr.strip PyStr.dquote raw)) as [c|] eqn:E;
      [|left; discriminate].
    destruct (strip_first_kept _ _ _ E) as [H|(d & H & Hd)].
    + left. intros [= ->]. specialize (Hf _ H). discriminate.
    + right. apply char_in_single in Hd. now subst d.
  - destruct (PyStr.last_char (PyStr.strip PyStr.dquote raw)) as [c|] eqn:E;
      [|left; discriminate].
    destruct (strip_last_kept _ _ _ E) as [H|(d & H & Hd)].
    + left. intros [= ->]. specialize (Hl _ H). discriminate.
    + right. apply char_in_single in Hd. now subst d.
Qed.

(** ** Normalisation *)




(** ** Chains *)

Lemma chain_functional h link a l1 l2 :
  chain h link a l1 -> chain h link a l2 -> l1 = l2.
Proof.
  intros H1. revert l2.
  induction H1 as [a t Ha Hl | a t n l Ha Hl Hc IH]; intros l2 H2;
    inversion H2; subst; try congruence.
  assert (n0 = n) by congruence. subst. f_equal. now apply IH.
Qed.

Lemma chain_suffix h link a l n :
  chain h link a l -> n ∈ l ->
  exists l', chain h link n l' /\ (List.length l' < List.length l)%nat.
Proof.
  induction 1 as [a t Ha Hl | a t m l Ha Hl Hc IH]; intros Hn.
  - inversion Hn.
  - apply elem_of_cons in Hn as [->|Hn].
    + exists l. split; [exact Hc|simpl; lia].
    + destruct (IH Hn) as (l' & Hc' & Hlt). exists l'. split; [exact Hc'|simpl; lia].
Qed.

(** A chain never comes back to its first token. *)
Lemma chain_acyclic h link a l : chain h link a l -> a ∉ l.
Proof.
  intros Hc Hin. destruct (chain_suffix _ _ _ _ _ Hc Hin) as (l' & Hc' & Hlt).
  rewrite (chain_functional _ _ _ _ _ Hc Hc') in Hlt. lia.
Qed.

(** *** The chains of a built statement *)

Lemma wire_lookup n toks : forall i k t,
  toks !! k = Some t ->
  wire n i toks !! k
  = Some (set_links t (Some (i + k - 1)%nat)
            (Some (if (i + k <? n)%nat then S (i + k) else EmptyToken))).
Proof.
  induction toks as [|t0 toks IH]; intros i k t Hk; [discriminate|].
  destruct k as [|k]; simpl in *.
  - injection Hk as ->. now rewrite Nat.add_0_r.
  - rewrite (IH (S i) k t Hk).
    now replace (S i + k)%nat with (i + S k)%nat by lia.
Qed.

Lemma chain_heap_lookup toks k t :
  toks !! k = Some t ->
  chain_heap toks !! S k
  = Some (set_links t (Some k)
            (Some (if (S k <? List.length toks)%nat then S (S k)
                   else EmptyToken))).
Proof.
  intros Hk. unfold chain_heap, module_heap. simpl.
  rewrite (wire_lookup _ _ 1%nat k t Hk). simpl. now rewrite Nat.sub_0_r.
Qed.

Lemma chain_heap_sentinel toks : chain_heap toks !! EmptyToken = Some sentinel.
Proof. reflexivity. Qed.


Lemma last_up n m : last (up n m) = Some EmptyToken.
Proof.
  induction m as [|m IH]; [reflexivity|].
  simpl. destruct (up n m) eqn:E; [destruct m; discriminate|exact IH].
Qed.


(** And a sentinel-terminated chain of successors. *)
Lemma chain_heap_next toks m :
  (m < List.length toks)%nat ->
  sentinel_terminated (chain_heap toks) next_token
    (List.length toks - m)%nat (up (List.length toks) m).
Proof.
  intros Hm. split; [|split; [|apply chain_heap_sentinel]].
  - induction m as [|m IH].
    + destruct (lookup_lt_is_Some_2 toks (List.length toks - 1)) as [t Ht];
        [lia|].
      pose proof (chain_heap_lookup _ _ _ Ht) as Hl.
      replace (S (List.length toks - 1)) with (List.length toks - 0)%nat
        in Hl by lia.
      eapply chain_step; [exact Hl| |now eapply chain_end].
      simpl. destruct (Nat.ltb_spec (List.length toks - 0) (List.length toks));
        [lia|reflexivity].
    + destruct (lookup_lt_is_Some_2 toks (List.length toks - S m - 1))
        as [t Ht]; [lia|].
      pose proof (chain_heap_lookup _ _ _ Ht) as Hl.
      replace (S (List.length toks - S m - 1)) with (List.length toks - S m)%nat
        in Hl by lia.
      eapply chain_step; [exact Hl| |apply IH; lia].
      simpl.
      destruct (Nat.ltb_spec (List.length toks - S m) (List.length toks));
        [f_equal; lia|lia].
  - destruct m as [|m]; [reflexivity|].
    change (last ((List.length toks - S m)%nat :: up (List.length toks) (S m)))
      with (last (up (List.length toks) (S (S m)))).
    apply last_up.
Qed.

(** ** [get_nth_previous] *)

Lemma get_nth_previous_rec_chain h fuel : forall a l level,
  chain h previous_token a l -> 1 <= level -> (Z.to_nat level <= fuel)%nat ->
  get_nth_previous_rec fuel h a level
  = Ok (nth (Z.to_nat (level - 1)) l EmptyToken).
Proof.
  induction fuel as [|fuel IH]; intros a l level Hc Hl Hf; [lia|].
  simpl. destruct (Z.ltb_spec level 1) as [|_]; [lia|].
  inversion Hc as [a' t Ha Hp | a' t n l' Ha Hp Hc']; subst;
    unfold deref; rewrite Ha; simpl; rewrite Hp.
  - now destruct (Z.to_nat (level - 1)).
  - destruct (Z.ltb_spec 1 level) as [Hgt|Hle].
    + rewrite (IH n l' (level - 1) Hc') by lia.
      replace (Z.to_nat (level - 1)) with (S (Z.to_nat (level - 1 - 1))) by lia.
      reflexivity.
    + replace level with 1 by lia. reflexivity.
Qed.

(** The recursion makes one call per hop, and stops at the absent link:
    with a frame for each of these calls it returns. *)
Lemma get_nth_previous_rec_frames h frames : forall a l level,
  chain h previous_token a l -> 1 <= level ->
  (Nat.min (Z.to_nat level) (S (List.length l)) <= frames)%nat ->
  get_nth_previous_rec frames h a level
  = Ok (nth (Z.to_nat (level - 1)) l EmptyToken).
Proof.
  induction frames as [|frames IH]; intros a l level Hc Hl Hf; [lia|].
  simpl. destruct (Z.ltb_spec level 1) as [|_]; [lia|].
  inversion Hc as [a' t Ha Hp | a' t n l' Ha Hp Hc']; subst;
    unfold deref; rewrite Ha; exec; rewrite Hp.
  - now destruct (Z.to_nat (level - 1)).
  - destruct (Z.ltb_spec 1 level) as [Hgt|Hle].
    + rewrite (IH n l' (level - 1) Hc') by (simpl in Hf; lia).
      replace (Z.to_nat (level - 1)) with (S (Z.to_nat (level - 1 - 1))) by lia.
      reflexivity.
    + replace level with 1 by lia. reflexivity.
Qed.

(** No bound of a loop is involved in [get_nth_previous]. *)
Lemma get_nth_previous_rec_ends h frames : forall a level,
  get_nth_previous_rec frames h a level <> OutOfFuel.
Proof.
  induction frames as [|frames IH]; intros a level; [discriminate|].
  simpl. destruct (Z.ltb_spec level 1); [discriminate|].
  unfold deref. destruct (h !! a) as [t|]; exec; [|discriminate].
  destruct (previous_token t) as [p|]; [|discriminate].
  destruct (Z.ltb_spec 1 level); [apply IH|discriminate].
Qed.




Lemma chain_a_b_c : chain heap_a_b_c previous_token 5 [4; 3; 2; 1; 0]%nat.
Proof. repeat (eapply chain_step; [reflexivity..|]). now eapply chain_end. Qed.


(** ** [find_nearest_token] *)

Section FindNearest.

Variables (get : addr -> result PyVal) (link : SQLToken -> option addr).
Variables (values : list PyVal) (h : heap).

(** The loop follows the chain and is the [walk] over its tokens. *)
Lemma find_nearest_loop_walk a l :
  chain h link a l ->
  forall fuel, (List.length l < fuel)%nat ->
  find_nearest_loop get link values h fuel a = walk get values l.
Proof.
  induction 1 as [a t Ha Hl | a t n l Ha Hl Hc IH]; intros fuel Hf;
    (destruct fuel as [|fuel]; [simpl in Hf; lia|]);
    simpl; unfold deref; rewrite Ha; simpl; rewrite Hl; [reflexivity|].
  destruct (get n) as [v| | |]; simpl; try reflexivity.
  destruct (py_in v values); [reflexivity|].
  apply IH. simpl in Hf. lia.
Qed.

(** Where every read succeeds, the walk returns the first match. *)
Lemma walk_first_match l :
  (forall n, n ∈ l -> exists v, get n = Ok v) ->
  walk get values l = Ok (first_match (attr_matches get values) l).
Proof.
  induction l as [|n l IH]; intros Hr; [reflexivity|].
  destruct (Hr n) as [v Hv]; [left|].
  unfold first_match. simpl. unfold attr_matches at 1. rewrite Hv. simpl.
  destruct (py_in v values); [reflexivity|].
  apply IH. intros m Hm. apply Hr. now right.
Qed.

(** What the walk returns is a token of the chain, or the sentinel. *)
Lemma walk_result l r :
  walk get values l = Ok r -> r ∈ l \/ r = EmptyToken.
Proof.
  induction l as [|n l IH]; simpl; [intros [= <-]; now right|].
  destruct (get n) as [v| | |]; simpl; try discriminate.
  destruct (py_in v values).
  - intros [= <-]. left. left.
  - intros H. destruct (IH H) as [Hin|He]; [left; now right|now right].
Qed.

Lemma first_match_result l :
  first_match (attr_matches get values) l ∈ l
  \/ first_match (attr_matches get values) l = EmptyToken.
Proof.
  unfold first_match.
  destruct (List.find _ l) as [r|] eqn:E; [|now right].
  left. apply find_some in E as [Hin _]. now apply list_elem_of_In.
Qed.

End FindNearest.

Lemma getattr_field FI fuel h n f :
  is_Some (h !! n) -> exists v, getattr FI fuel h n (AField f) = Ok v.
Proof.
  intros [t Ht]. exists (field_value t f). unfold getattr, deref.
  now rewrite Ht.
Qed.

Lemma chain_allocated h link a l n :
  chain h link a l -> n ∈ l -> is_Some (h !! n).
Proof.
  induction 1 as [a t Ha Hl | a t m l Ha Hl Hc IH]; intros Hn;
    [inversion Hn|].
  apply elem_of_cons in Hn as [->|Hn]; [|now apply IH].
  inversion Hc; eauto.
Qed.

Lemma readable_on_reads FI fuel h attr a link l :
  chain h link a l -> readable_on FI fuel h attr l ->
  forall n, n ∈ l -> exists v, getattr FI fuel h n attr = Ok v.
Proof.
  intros Hc Hr n Hn. destruct attr as [f|p].
  - apply getattr_field. eapply chain_allocated; eassumption.
  - exact (Hr n Hn).
Qed.

Lemma find_nearest_loop_result get link values h a l :
  chain h link a l ->
  forall fuel r,
  find_nearest_loop get link values h fuel a = Ok r -> r ∈ l \/ r = EmptyToken.
Proof.
  induction 1 as [a t Ha Hl | a t n l Ha Hl Hc IH]; intros fuel r;
    (destruct fuel as [|fuel]; [discriminate|]);
    simpl; unfold deref; rewrite Ha; simpl; rewrite Hl.
  - intros [= <-]. now right.
  - destruct (get n) as [v| | |]; simpl; try discriminate.
    destruct (py_in v values).
    + intros [= <-]. left. left.
    + intros H. destruct (IH _ _ H) as [Hin|He]; [left; now right|now right].
Qed.

Lemma link_of_not_left direction :
  direction <> "left" -> link_of direction = link_of "right".
Proof.
  intros H. unfold link_of. now destruct (String.eqb_spec direction "left").
Qed.

Lemma sentinel_terminated_a_b_c :
  sentinel_terminated heap_a_b_c (link_of "left") 5 [4; 3; 2; 1; 0]%nat.
Proof. split; [exact chain_a_b_c|split; reflexivity]. Qed.

Lemma chain_right_a_b_c : chain heap_a_b_c next_token 1 [2; 3; 4; 5; 0]%nat.
Proof. repeat (eapply chain_step; [reflexivity..|]). now eapply chain_end. Qed.

(** C2.  On the chain of [a.b.c], which ends in the sentinel, searching
    to the right of [a] for a token whose [is_alias_without_as] is true
    finds none, reaches the sentinel and reads the property there: the
    sentinel has no next token, and the call raises [AttributeError] where
    the sentinel was to be returned. *)
Lemma find_nearest_token_raises :
  sentinel_terminated heap_a_b_c (link_of "right") 1 [2; 3; 4; 5; 0]%nat
  /\ find_nearest_token [] 6 heap_a_b_c 1 (Single (VBool true)) "right"
       (AProperty P_is_alias_without_as) = Raise AttributeError.
Proof.
  split; [|reflexivity].
  split; [exact chain_right_a_b_c|split; reflexivity].
Qed.

(** The walk follows [previous_token] for the direction ["left"] and
    [next_token] for ["right"].  On a sentinel-terminated chain [l] in that
    direction, [find_nearest_token] ends and is the walk over [l]; where
    reading the selected attribute raises on no token of the chain, it
    returns the first token whose selected attribute is among the target
    values, and the sentinel when there is none. *)
Theorem find_nearest_token_spec FI fuel h a l value0 direction attr :
  sentinel_terminated h (link_of direction) a l ->
  (List.length l < fuel)%nat ->
  (link_of "left" = previous_token /\ link_of "right" = next_token)
  /\ find_nearest_token FI fuel h a value0 direction attr
     = walk (fun n => getattr FI fuel h n attr) (as_list value0) l
  /\ (readable_on FI fuel h attr l ->
      find_nearest_token FI fuel h a value0 direction attr
      = Ok (first_match
              (attr_matches (fun n => getattr FI fuel h n attr) (as_list value0))
              l))
  /\ (forall f fuel', attr = AField f -> (List.length l < fuel')%nat ->
      find_nearest_token FI fuel' h a value0 direction attr
      = find_nearest_token FI fuel h a value0 direction attr).
Proof.
  intros (Hc & _ & _) Hf.
  assert (Hw : forall k, (List.length l < k)%nat ->
    find_nearest_token FI k h a value0 direction attr
    = walk (fun n => getattr FI k h n attr) (as_list value0) l).
  { intros k Hk. unfold find_nearest_token.
    now apply find_nearest_loop_walk. }
  split; [split; reflexivity|].
  split; [now apply Hw|]. split.
  - intros Hr. rewrite (Hw _ Hf). apply walk_first_match.
    eapply readable_on_reads; eassumption.
  - intros f fuel' -> Hf'. rewrite (Hw _ Hf), (Hw _ Hf'). reflexivity.
Qed.

Lemma find_nearest_token_spec_witness :
  find_nearest_token [] 6 heap_a_b_c 5 (Single (VStr "a")) "left"
    (AField F_value) = Ok 1%nat.
Proof.
  exact (proj1 (proj2 (proj2 (find_nearest_token_spec [] 6 heap_a_b_c 5
           [4; 3; 2; 1; 0]%nat (Single (VStr "a")) "left" (AField F_value)
           sentinel_terminated_a_b_c ltac:(simpl; lia)))) I).
Defined.

(** C10, counterexample.  From [b] in [a.b.c], the direction ["up"] does
    not find the [a] on the left: it walks to the right, as ["right"]
    does.  And invoked on the sentinel, the call returns the sentinel. *)
Lemma find_nearest_token_other_direction :
  find_nearest_token [] 6 heap_a_b_c 3 (Single (VStr "a")) "up"
    (AField F_value) = Ok EmptyToken
  /\ find_nearest_token [] 6 heap_a_b_c 3 (Single (VStr "a")) "left"
       (AField F_value) = Ok 1%nat
  /\ find_nearest_token [] 6 heap_a_b_c 3 (Single (VStr "a")) "right"
       (AField F_value) = Ok EmptyToken
  /\ find_nearest_token [] 6 heap_a_b_c EmptyToken (Single (VStr "a")) "left"
       (AField F_value) = Ok EmptyToken.
Proof. repeat split. Qed.

(** C10, amended.  The first token compared is the immediate neighbour in
    the direction of the walk: when it matches it is returned.  On a chain
    that ends at an absent link, a call on a token other than the sentinel
    never returns that token, whatever its own attribute.  Every direction
    other than ["left"] is treated as ["right"]. *)
Theorem find_nearest_token_skips_self FI fuel h a l value0 direction attr :
  chain h (link_of direction) a l ->
  a <> EmptyToken ->
  (forall r, find_nearest_token FI fuel h a value0 direction attr = Ok r ->
             r <> a)
  /\ (forall t n v, h !! a = Some t -> link_of direction t = Some n ->
        getattr FI (S fuel) h n attr = Ok v -> py_in v (as_list value0) = true ->
        find_nearest_token FI (S fuel) h a value0 direction attr = Ok n)
  /\ (direction <> "left" ->
      find_nearest_token FI fuel h a value0 direction attr
      = find_nearest_token FI fuel h a value0 "right" attr).
Proof.
  intros Hc Ha. split; [|split].
  - intros r Hr. unfold find_nearest_token in Hr.
    destruct (find_nearest_loop_result _ _ _ _ _ _ Hc _ _ Hr) as [Hin|He].
    + intros ->. exact (chain_acyclic _ _ _ _ Hc Hin).
    + congruence.
  - intros t n v Ht Hl Hv Hin. unfold find_nearest_token. simpl.
    unfold deref. rewrite Ht. simpl. rewrite Hl, Hv. simpl. now rewrite Hin.
  - intros Hd. unfold find_nearest_token. now rewrite (link_of_not_left _ Hd).
Qed.

Lemma find_nearest_token_skips_self_witness :
  (forall r, find_nearest_token [] 6 heap_a_b_c 5 (Single (VStr "c")) "left"
               (AField F_value) = Ok r -> r <> 5%nat)
  /\ find_nearest_token [] 6 heap_a_b_c 5 (Single (VStr "c")) "left"
       (AField F_value) = Ok EmptyToken.
Proof.
  split; [|reflexivity].
  apply (find_nearest_token_skips_self [] 6 heap_a_b_c 5 [4; 3; 2; 1; 0]%nat
           (Single (VStr "c")) "left" (AField F_value) chain_a_b_c).
  discriminate.
Defined.

(** ** [left_expanded] *)

Lemma sentinel_not_dot (h : heap) n t :
  h !! EmptyToken = Some sentinel -> n = EmptyToken -> h !! n = Some t ->
  is_dot t = false.
Proof. intros Hs -> Ht. rewrite Hs in Ht. now injection Ht as <-. Qed.

Lemma left_expanded_loop_expand (h : heap) fuel : forall a l ts v,
  sentinel_terminated h previous_token a l -> objects h l ts ->
  (List.length l < fuel)%nat ->
  left_expanded_loop fuel h a v = Ok (expand ts v).
Proof.
  induction fuel as [|fuel IH]; intros a l ts v (Hc & Hlast & Hs) Ho Hf; [lia|].
  simpl. inversion Hc as [a' t Ha Hp | a' t n l' Ha Hp Hc']; subst;
    unfold deref; rewrite Ha; simpl; rewrite Hp.
  - inversion Ho; subst. reflexivity.
  - inversion Ho as [|n' tn l'' ts' Hn Ho']; subst. rewrite Hn. simpl.
    destruct (is_dot tn) eqn:Hdot.
    + inversion Hc' as [n' tn' Hn' Hpn | n' tn' p l2 Hn' Hpn Hc2]; subst.
      * exfalso. simpl in Hlast. injection Hlast as Hlast.
        rewrite (sentinel_not_dot h n tn Hs Hlast Hn) in Hdot. discriminate.
      * inversion Ho' as [|p' tp l3 ts2 Hp2 Ho2]; subst.
        unfold get_nth_previous.
        rewrite (get_nth_previous_rec_chain h _ a (n :: p :: l2) 2 Hc)
          by (unfold recursion_limit; simpl; lia).
        simpl. unfold deref. rewrite Hp2. simpl.
        apply (IH p l2 ts2); [|exact Ho2|simpl in Hf; lia].
        split; [exact Hc2|split; [|exact Hs]].
        simpl in Hlast |- *. exact Hlast.
    + destruct ts'; reflexivity.
Qed.

(** C5, counterexample.  The only token of its statement, built from the
    lexer token ["`a`"], has the value [`a`]; [left_expanded] strips
    the back quotes and is [a]. *)
Lemma left_expanded_differs_from_value :
  heap_quoted !! 1%nat
  = Some (set_links (SQLToken_init (Some quoted_backticked) 0 0 None)
            (Some EmptyToken) (Some EmptyToken))
  /\ value (SQLToken_init (Some quoted_backticked) 0 0 None) = "`a`"
  /\ left_expanded 2 heap_quoted 1 = Ok "a".
Proof. repeat split. Qed.

(** C5, amended.  On a sentinel-terminated chain of predecessors,
    [left_expanded] is [expand] over them with the back quotes at both
    ends stripped: while the immediate predecessor is a dot it puts
    ["<name>."] in front for a name two hops back and goes on from that
    token.  For [a.b.c] it is [a.b.c] on [c].  For a token whose
    predecessor is not a dot it is the token's value with surrounding
    double quotes and then back quotes stripped: the value itself when the
    value begins and ends with neither. *)
Theorem left_expanded_spec fuel h a t l ts :
  sentinel_terminated h previous_token a l ->
  h !! a = Some t -> objects h l ts ->
  (List.length l < fuel)%nat ->
  left_expanded fuel h a = Ok (PyStr.strip "`" (expand ts (str t)))
  /\ (forall d p rest, ts = d :: p :: rest -> is_dot d = true -> is_name p = true ->
      left_expanded fuel h a
      = Ok (PyStr.strip "`" (expand rest (str p +:+ "." +:+ str t))))
  /\ ((forall d, head ts = Some d -> is_dot d = false) ->
      left_expanded fuel h a
      = Ok (PyStr.strip "`" (PyStr.strip PyStr.dquote (value t)))
      /\ (no_leading_trailing PyStr.dquote (value t) ->
          no_leading_trailing "`" (value t) ->
          left_expanded fuel h a = Ok (value t)))
  /\ left_expanded 6 heap_a_b_c 5 = Ok "a.b.c".
Proof.
  intros Hst Ha Ho Hf.
  assert (Hmain : left_expanded fuel h a
                  = Ok (PyStr.strip "`" (expand ts (str t)))).
  { unfold left_expanded, deref. rewrite Ha. simpl.
    now rewrite (left_expanded_loop_expand h fuel a l ts (str t) Hst Ho Hf). }
  split; [exact Hmain|]. split; [|split; [|reflexivity]].
  - intros d p rest -> Hd Hp. rewrite Hmain. simpl. now rewrite Hd, Hp.
  - intros Hnd.
    assert (He : expand ts (str t) = str t).
    { destruct ts as [|d [|p rest]]; try reflexivity.
      simpl. now rewrite (Hnd d eq_refl). }
    rewrite Hmain, He. split; [reflexivity|].
    intros Hq Hb. unfold str. now rewrite (strip_id _ _ Hq), (strip_id _ _ Hb).
Qed.

Lemma left_expanded_spec_witness :
  left_expanded 6 heap_a_b_c 5 = Ok "a.b.c".
Proof.
  assert (Ho : objects heap_a_b_c [4; 3; 2; 1; 0]%nat
                 (omap (fun n => heap_a_b_c !! n) [4; 3; 2; 1; 0]%nat)).
  { unfold objects. repeat (constructor; [reflexivity|]). constructor. }
  exact (proj1 (left_expanded_spec 6 heap_a_b_c 5 _ [4; 3; 2; 1; 0]%nat _
                  sentinel_terminated_a_b_c eq_refl Ho ltac:(simpl; lia))).
Defined.

(** ** [split] and [join] *)

Lemma split_not_nil sep s : PyStr.split sep s <> [].
Proof.
  destruct s as [|c s]; simpl; [discriminate|].
  destruct (Ascii.eqb c sep); [discriminate|].
  destruct (PyStr.split sep s); discriminate.
Qed.

(** A text without the separator is its own single segment. *)
Lemma split_without_sep sep s :
  PyStr.char_in sep s = false -> PyStr.split sep s = [s].
Proof.
  unfold PyStr.char_in. induction s as [|c s IH]; simpl; [reflexivity|].
  intros H. apply orb_false_iff in H as [Hc Hs].
  rewrite Ascii.eqb_sym, Hc. now rewrite (IH Hs).
Qed.

(** A text with the separator has at least two segments. *)
Lemma split_with_sep sep s :
  PyStr.char_in sep s = true -> (2 <= List.length (PyStr.split sep s))%nat.
Proof.
  unfold PyStr.char_in. induction s as [|c s IH]; simpl; [discriminate|].
  rewrite (Ascii.eqb_sym sep c). destruct (Ascii.eqb c sep); simpl.
  - intros _. pose proof (split_not_nil sep s).
    destruct (PyStr.split sep s); [congruence|simpl; lia].
  - intros H. specialize (IH H).
    destruct (PyStr.split sep s); simpl in *; lia.
Qed.

(** Joining the segments with the separator gives the text back. *)
Lemma join_split sep s :
  PyStr.join (String sep EmptyString) (PyStr.split sep s) = s.
Proof.
  induction s as [|c s IH]; simpl; [reflexivity|].
  pose proof (split_not_nil sep s) as Hn.
  destruct (Ascii.eqb_spec c sep) as [->|Hne].
  - destruct (PyStr.split sep s) as [|p ps]; [congruence|].
    change (PyStr.join (String sep "") ("" :: p :: ps))
      with (String sep (PyStr.join (String sep "") (p :: ps))).
    now rewrite IH.
  - destruct (PyStr.split sep s) as [|p ps]; [congruence|].
    destruct ps as [|q ps]; [simpl in *; now rewrite IH|].
    change (PyStr.join (String sep "") (String c p :: q :: ps))
      with (String c (PyStr.join (String sep "") (p :: q :: ps))).
    now rewrite IH.
Qed.

(** ** [table_prefixed_column] *)

(** C6, counterexample.  The single name [al], with [al] in the alias
    mapping: its left-expanded value has no dot and is returned as it is,
    not rewritten to [orders]. *)
Lemma table_prefixed_column_keeps_undotted_alias :
  left_expanded 2 heap_al 1 = Ok "al"
  /\ PyStr.split "." "al" = ["al"]
  /\ ({[ "al" := "orders" ]} : gmap string string) !! "al" = Some "orders"
  /\ table_prefixed_column 2 heap_al 1 {[ "al" := "orders" ]} = Ok "al".
Proof. repeat split. Qed.

(** C6, amended.  With [v] the left-expanded value:
    when [v] has no dot it is returned unchanged and the mapping is not
    consulted; when [v] has a dot and at most three dot-separated segments,
    the first segment is replaced by its entry in the mapping, or kept when
    it has none (the result is then [v]), and the other segments are kept;
    the call raises the error exactly when [v] has more than three
    segments.  [al.col] with [al] mapped to [orders] gives [orders.col], and
    [a.b.c.d] fails. *)
Theorem table_prefixed_column_spec fuel h a table_aliases v :
  left_expanded fuel h a = Ok v ->
  (PyStr.char_in "." v = false ->
     table_prefixed_column fuel h a table_aliases = Ok v)
  /\ (PyStr.char_in "." v = true ->
      (List.length (PyStr.split "." v) <= 3)%nat ->
      exists p0 rest,
        PyStr.split "." v = p0 :: rest
        /\ table_prefixed_column fuel h a table_aliases
           = Ok (PyStr.join "." (default p0 (table_aliases !! p0) :: rest))
        /\ (table_aliases !! p0 = None ->
            table_prefixed_column fuel h a table_aliases = Ok v))
  /\ ((exists msg, table_prefixed_column fuel h a table_aliases
                   = Raise (ValueError msg))
      <-> (3 < List.length (PyStr.split "." v))%nat)
  /\ table_prefixed_column 4 heap_al_col 3 {[ "al" := "orders" ]}
     = Ok "orders.col"
  /\ table_prefixed_column 8 heap_a_b_c_d 7 {[ "al" := "orders" ]}
     = Raise (ValueError "Wrong columns name: a.b.c.d").
Proof.
  intros Hv. unfold table_prefixed_column. rewrite Hv. simpl.
  split; [|split; [|split; [|split; reflexivity]]].
  - now intros ->.
  - intros -> Hlen.
    destruct (Nat.ltb_spec 3 (List.length (PyStr.split "." v))) as [|_]; [lia|].
    generalize (join_split "." v).
    destruct (PyStr.split "." v) as [|p0 rest] eqn:E;
      [now apply split_not_nil in E|].
    intros Hj. exists p0, rest. split; [reflexivity|]. split; [reflexivity|].
    intros ->. unfold default. f_equal. exact Hj.
  - destruct (PyStr.char_in "." v) eqn:Hd.
    + destruct (Nat.ltb_spec 3 (List.length (PyStr.split "." v))) as [Hgt|Hle].
      * split; [intros _; exact Hgt|intros _; eauto].
      * split; [|lia]. intros [msg Hm].
        destruct (PyStr.split "." v); discriminate.
    + rewrite (split_without_sep _ _ Hd). simpl.
      split; [intros [msg Hm]; discriminate|lia].
Qed.

Lemma table_prefixed_column_spec_witness :
  table_prefixed_column 4 heap_al_col 3 ∅ = Ok "al.col"
  /\ ~ exists msg, table_prefixed_column 4 heap_al_col 3 ∅
                   = Raise (ValueError msg).
Proof.
  pose proof (table_prefixed_column_spec 4 heap_al_col 3 ∅ "al.col" eq_refl)
    as (_ & Hdot & Hraise & _).
  split.
  - destruct (Hdot eq_refl ltac:(simpl; lia)) as (p0 & rest & Hs & _ & Hnone).
    apply Hnone. injection Hs as <- _. reflexivity.
  - intros He. apply Hraise in He. simpl in He. lia.
Defined.

(** ** [is_alias_without_as] *)

(** C7.  [is_alias_without_as] is true exactly when the token has a next
    and a previous token and the four conditions hold: the next token's
    normalized value is [,] or [FROM]; the previous token's is none of [,],
    [.], [(], [SELECT]; the normalized last keyword is [SELECT]; the
    previous token is not a comment.  For a token with both neighbours it
    is a boolean.  In [SELECT col alias FROM t] it is true for [alias] and
    false for [col]. *)
Theorem is_alias_without_as_spec :
  (forall (h : heap) a,
     is_alias_without_as h a = Ok true <->
     exists t n tn p tp,
       h !! a = Some t
       /\ next_token t = Some n /\ h !! n = Some tn
       /\ previous_token t = Some p /\ h !! p = Some tp
       /\ PyStr.str_in (normalized tn) [","; "FROM"] = true
       /\ PyStr.str_in (normalized tp) [","; "."; "("; "SELECT"] = false
       /\ last_keyword_normalized t = "SELECT"
       /\ is_comment tp = false)
  /\ (forall (h : heap) a t n tn p tp,
        h !! a = Some t ->
        next_token t = Some n -> h !! n = Some tn ->
        previous_token t = Some p -> h !! p = Some tp ->
        exists b, is_alias_without_as h a = Ok b)
  /\ is_alias_without_as heap_select_alias 3 = Ok true
  /\ is_alias_without_as heap_select_alias 2 = Ok false.
Proof.
  split; [|split; [|split; reflexivity]].
  - intros h a. unfold is_alias_without_as, deref, through. split.
    + destruct (h !! a) as [t|] eqn:Ha; exec; [|discriminate].
      destruct (next_token t) as [n|] eqn:Hn; exec; [|discriminate].
      destruct (h !! n) as [tn|] eqn:Htn; exec; [|discriminate].
      destruct (PyStr.str_in (normalized tn) [","; "FROM"]) eqn:Hnext;
        [|discriminate].
      destruct (previous_token t) as [p|] eqn:Hp; exec; [|discriminate].
      destruct (h !! p) as [tp|] eqn:Htp; exec; [|discriminate].
      destruct (PyStr.str_in (normalized tp) [","; "."; "("; "SELECT"])
        eqn:Hprev; exec; [discriminate|].
      destruct (String.eqb_spec (last_keyword_normalized t) "SELECT") as [Hk|];
        [|discriminate].
      destruct (is_comment tp) eqn:Hcm; [discriminate|]. intros _.
      exists t, n, tn, p, tp. repeat split; assumption.
    + intros (t & n & tn & p & tp & Ha & Hn & Htn & Hp & Htp & Hnext & Hprev
              & Hk & Hcm).
      rewrite Ha. exec. rewrite Hn. exec. rewrite Htn. exec.
      rewrite Hnext, Hp. exec. rewrite Htp. exec. rewrite Hprev, Hk, Hcm.
      reflexivity.
  - intros h a t n tn p tp Ha Hn Htn Hp Htp.
    unfold is_alias_without_as, deref, through.
    rewrite Ha. exec. rewrite Hn. exec. rewrite Htn. exec.
    destruct (PyStr.str_in (normalized tn) [","; "FROM"]); [|eauto].
    rewrite Hp. exec. rewrite Htp. exec.
    destruct (negb _); [|eauto].
    destruct (String.eqb _ _); eauto.
Qed.

(** ** [stringified_token] *)

(** C8, counterexample.  Concatenating [stringified_token] over the tokens
    of [SELECT a,b] gives a space first and a space after the comma. *)
Lemma rebuild_select_a_b_differs :
  rebuild [] heap_select_a_b [1; 2; 3; 4]%nat = Ok " SELECT a, b"
  /\ rebuild [] heap_select_a_b [1; 2; 3; 4]%nat <> Ok "SELECT a,b".
Proof. split; [reflexivity|discriminate]. Qed.

(** C8, amended.  For a token that has a previous token,
    [stringified_token] is the token's string representation, without a
    leading space exactly when the token's normalized value is [)], [.] or
    [,], or the previous token's normalized value is [(] or [.], or the
    token is a left parenthesis after a token whose normalized value is in
    the ignore-list, and with one leading space otherwise; for a token with
    no previous token it is the string representation alone.  The first
    token of a statement, preceded by the sentinel, gets a leading space and
    so does a name after a comma: over the tokens of [SELECT a,b] the
    concatenation is [ SELECT a, b], with no space before the comma. *)
Theorem stringified_token_spec FI (h : heap) a t :
  h !! a = Some t ->
  (forall p tp, previous_token t = Some p -> h !! p = Some tp ->
     stringified_token FI h a
     = Ok (if PyStr.str_in (normalized t) [")"; "."; ","]
              || PyStr.str_in (normalized tp) ["("; "."]
              || (is_left_parenthesis t && PyStr.str_in (normalized tp) FI)
           then str t
           else " " +:+ str t))
  /\ (previous_token t = None -> stringified_token FI h a = Ok (str t))
  /\ rebuild FI heap_select_a_b [1; 2; 3; 4]%nat = Ok " SELECT a, b".
Proof.
  intros Ha. unfold stringified_token, deref. rewrite Ha. simpl.
  split; [|split].
  - intros p tp Hp Htp. rewrite Hp, Htp. simpl.
    now destruct (_ || _ || _).
  - now intros ->.
  - reflexivity.
Qed.

Lemma stringified_token_spec_witness :
  stringified_token ["COUNT"] heap_select_a_b 3 = Ok ","
  /\ stringified_token ["COUNT"] heap_select_a_b 4 = Ok " b"
  /\ stringified_token ["COUNT"] heap_select_a_b 0 = Ok "".
Proof.
  split; [|split].
  - exact (proj1 (stringified_token_spec ["COUNT"] heap_select_a_b 3 _ eq_refl)
             2%nat _ eq_refl eq_refl).
  - exact (proj1 (stringified_token_spec ["COUNT"] heap_select_a_b 4 _ eq_refl)
             3%nat _ eq_refl eq_refl).
  - exact (proj1 (proj2 (stringified_token_spec ["COUNT"] heap_select_a_b 0 _
                           eq_refl)) eq_refl).
Defined.

(** * Further properties of the module *)

(** ** [__str__] *)

(** X1.  For a token built by [__init__], with or without a lexer token,
    the string representation is the stored value: the double quotes
    [__str__] strips were stripped at construction.  Rewiring the links
    does not change it. *)
Theorem str_of_built_token tok index lvl kw p n :
  str (SQLToken_init tok index lvl kw) = value (SQLToken_init tok index lvl kw)
  /\ str (set_links (SQLToken_init tok index lvl kw) p n)
     = value (SQLToken_init tok index lvl kw).
Proof.
  assert (H : str (SQLToken_init tok index lvl kw)
              = value (SQLToken_init tok index lvl kw)).
  { destruct tok as [tok|]; [|reflexivity].
    unfold str. cbn [SQLToken_init SQLToken_init_on set_from_raw value
      _set_default_parenthesis_status]. apply strip_idempotent. }
  split; [exact H|exact H].
Qed.

(** ** Classification *)

Lemma ttype_eqb_eq a b : ttype_eqb a b = true <-> a = b.
Proof. unfold ttype_eqb. apply bool_decide_eq_true. Qed.

(** X2.  A token built from a lexer token carries at most one of the
    flags [is_name], [is_punctuation], [is_wildcard], [is_integer],
    [is_float], and at most one of [is_dot], [is_left_parenthesis],
    [is_right_parenthesis]; a set flag of the second group fixes the
    normalized value.  For a token of type [Name] itself [is_keyword] is
    what the lexer says, and a token whose type is a direct subtype of
    [Name] is a keyword and not a name, whatever the lexer says. *)
Theorem classification_exclusive tok index lvl kw :
  let t := SQLToken_init (Some tok) index lvl kw in
  (count_true [is_name t; is_punctuation t; is_wildcard t; is_integer t;
               is_float t] <= 1)%nat
  /\ (count_true [is_dot t; is_left_parenthesis t; is_right_parenthesis t]
      <= 1)%nat
  /\ (is_dot t = true -> normalized t = ".")
  /\ (is_left_parenthesis t = true -> normalized t = "(")
  /\ (is_right_parenthesis t = true -> normalized t = ")")
  /\ (is_name t = true -> is_keyword t = tok_is_keyword tok)
  /\ (forall sub, tok_ttype tok = ["Name"; sub] ->
        is_keyword t = true /\ is_name t = false).
Proof.
  intros t. subst t. unfold normalized.
  cbn [SQLToken_init SQLToken_init_on set_from_raw _set_default_parenthesis_status value
       is_name is_punctuation is_wildcard is_integer is_float is_dot
       is_left_parenthesis is_right_parenthesis is_keyword].
  destruct tok as [v k ty]. cbn [tok_value tok_is_keyword tok_ttype].
  split; [|split; [|split; [|split; [|split; [|split]]]]].
  - unfold count_true, ttype_eqb.
    repeat case_bool_decide; subst; try discriminate; simpl; lia.
  - unfold count_true.
    destruct (String.eqb_spec v "."), (String.eqb_spec v "("),
      (String.eqb_spec v ")"); subst; try discriminate; simpl; lia.
  - intros H. apply String.eqb_eq in H. now subst.
  - intros H. apply String.eqb_eq in H. now subst.
  - intros H. apply String.eqb_eq in H. now subst.
  - intros H. apply ttype_eqb_eq in H. subst ty.
    now rewrite orb_false_r.
  - intros sub ->. split; [|reflexivity].
    apply orb_true_iff. right. apply andb_true_iff. split.
    + now apply bool_decide_eq_true.
    + unfold ttype_eqb. apply negb_true_iff, bool_decide_eq_false.
      discriminate.
Qed.

Lemma classification_exclusive_witness :
  is_keyword (token_of "NULL" false ["Name"; "Builtin"] 0 None) = true
  /\ is_name (token_of "NULL" false ["Name"; "Builtin"] 0 None) = false
  /\ normalized (token_of "." false Punctuation 0 None) = ".".
Proof.
  pose proof (classification_exclusive
                {| tok_value := "NULL"; tok_is_keyword := false;
                   tok_ttype := ["Name"; "Builtin"] |} 0 0 None)
    as (_ & _ & _ & _ & _ & _ & Hsub).
  pose proof (classification_exclusive
                {| tok_value := "."; tok_is_keyword := false;
                   tok_ttype := Punctuation |} 0 0 None)
    as (_ & _ & Hdot & _).
  destruct (Hsub "Builtin" eq_refl) as [Hk Hn].
  split; [exact Hk|split; [exact Hn|exact (Hdot eq_refl)]].
Defined.

(** ** [normalized] *)

Lemma upper_char_idempotent c :
  PyStr.upper_char (PyStr.upper_char c) = PyStr.upper_char c.
Proof. destruct c as [[] [] [] [] [] [] [] []]; reflexivity. Qed.

Lemma upper_idempotent s : PyStr.upper (PyStr.upper s) = PyStr.upper s.
Proof.
  induction s as [|c s IH]; simpl; [reflexivity|].
  now rewrite upper_char_idempotent, IH.
Qed.

Lemma remove_chars_idempotent chars s :
  PyStr.remove_chars chars (PyStr.remove_chars chars s)
  = PyStr.remove_chars chars s.
Proof.
  apply remove_chars_twice. intros c. now rewrite orb_diag.
Qed.

(** X3.  [normalized] is a canonical form: a token whose value is the
    normalized value of another has the same normalized value, and so have
    two tokens whose values differ by letter case only. *)
Theorem normalized_canonical t t' :
  value t' = normalized t \/ PyStr.upper (value t') = PyStr.upper (value t) ->
  normalized t' = normalized t.
Proof.
  unfold normalized. intros [H|H].
  - rewrite H. unfold normalized.
    rewrite <- (remove_chars_upper PyStr.blanks (value t)) by apply upper_char_blank.
    rewrite remove_chars_idempotent.
    rewrite (remove_chars_upper PyStr.blanks (value t)) by apply upper_char_blank.
    apply upper_idempotent.
  - rewrite <- !(remove_chars_upper PyStr.blanks) by apply upper_char_blank.
    now rewrite H.
Qed.

Lemma normalized_canonical_witness :
  normalized (token_of "group by" true Keyword 0 None)
  = normalized (token_of "Group By" true Keyword 0 None)
  /\ normalized (token_of "GROUPBY" true Keyword 0 None)
     = normalized (token_of "Group  By" true Keyword 0 None).
Proof.
  split.
  - apply (normalized_canonical (token_of "Group By" true Keyword 0 None)
             (token_of "group by" true Keyword 0 None)).
    right. reflexivity.
  - apply (normalized_canonical (token_of "Group  By" true Keyword 0 None)
             (token_of "GROUPBY" true Keyword 0 None)).
    left. reflexivity.
Defined.

(** ** Hops *)

Lemma chain_nth h link a l :
  chain h link a l ->
  forall i, (i < List.length l)%nat ->
  chain h link (nth i l EmptyToken) (skipn (S i) l).
Proof.
  induction 1 as [a t Ha Hl | a t n l Ha Hl Hc IH]; intros i Hi;
    [simpl in Hi; lia|].
  destruct i as [|i]; [exact Hc|].
  apply IH. simpl in Hi. lia.
Qed.

(** X4.  Hops compose: on a sentinel-terminated chain of predecessors,
    and with a frame to spare for each call the [m + n] hops make, [m + n]
    hops back are [n] hops back from the token [m] hops back, also when the
    hops run past the start of the chain, where both give the sentinel. *)
Theorem get_nth_previous_compose frames h a l m n :
  sentinel_terminated h previous_token a l ->
  1 <= m -> 1 <= n ->
  (Nat.min (Z.to_nat (m + n)) (S (List.length l)) <= frames)%nat ->
  get_nth_previous_rec frames h a (m + n)
  = (p ← get_nth_previous_rec frames h a m; get_nth_previous_rec frames h p n).
Proof.
  intros (Hc & _ & Hs) Hm Hn Hf.
  rewrite (get_nth_previous_rec_frames h frames a l (m + n) Hc) by lia.
  rewrite (get_nth_previous_rec_frames h frames a l m Hc Hm) by lia. exec.
  destruct (Nat.lt_ge_cases (Z.to_nat (m - 1)) (List.length l)) as [Hlt|Hge].
  - pose proof (chain_nth _ _ _ _ Hc _ Hlt) as Hc'.
    rewrite (get_nth_previous_rec_frames h frames _ _ n Hc' Hn)
      by (rewrite length_skipn; lia).
    rewrite nth_skipn. do 2 f_equal. lia.
  - rewrite (nth_overflow l EmptyToken Hge).
    assert (Hc' : chain h previous_token EmptyToken []).
    { eapply chain_end; [exact Hs|reflexivity]. }
    rewrite (get_nth_previous_rec_frames h frames _ _ n Hc' Hn)
      by (simpl; lia).
    f_equal. rewrite nth_overflow by lia. now destruct (Z.to_nat (n - 1)).
Qed.

Lemma get_nth_previous_compose_witness :
  get_nth_previous heap_a_b_c 5 4
  = (p ← get_nth_previous heap_a_b_c 5 2; get_nth_previous heap_a_b_c p 2).
Proof.
  apply (get_nth_previous_compose recursion_limit heap_a_b_c 5
           [4; 3; 2; 1; 0]%nat 2 2 sentinel_terminated_a_b_c);
    [lia|lia|unfold recursion_limit; simpl; lia].
Defined.

(** ** The first match *)

Lemma walk_minimal get values l r :
  walk get values l = Ok r ->
  (exists l1 l2 v,
     l = l1 ++ r :: l2 /\ get r = Ok v /\ py_in v values = true
     /\ forall n, n ∈ l1 -> exists w, get n = Ok w /\ py_in w values = false)
  \/ (r = EmptyToken
      /\ forall n, n ∈ l -> exists w, get n = Ok w /\ py_in w values = false).
Proof.
  induction l as [|n l IH]; simpl.
  - intros [= <-]. right. split; [reflexivity|]. intros n Hn. inversion Hn.
  - destruct (get n) as [v| | |] eqn:Hv; exec; try discriminate.
    destruct (py_in v values) eqn:Hin.
    + intros [= <-]. left. exists [], l, v. repeat split; try assumption.
      intros m Hm. inversion Hm.
    + intros H. destruct (IH H) as [(l1 & l2 & w & -> & Hr & Hw & Hb)|[-> Hb]].
      * left. exists (n :: l1), l2, w. repeat split; try assumption.
        intros m Hm. apply elem_of_cons in Hm as [->|Hm]; eauto.
      * right. split; [reflexivity|].
        intros m Hm. apply elem_of_cons in Hm as [->|Hm]; eauto.
Qed.

(** X5.  What [find_nearest_token] returns on a chain is the nearest match:
    either a token of the chain whose selected attribute is among the
    target values while that of every token met before it is not, or the
    sentinel after every token of the chain was read and none matched. *)
Theorem find_nearest_token_nearest FI fuel h a l value0 direction attr r :
  chain h (link_of direction) a l ->
  (List.length l < fuel)%nat ->
  find_nearest_token FI fuel h a value0 direction attr = Ok r ->
  (exists l1 l2 v,
     l = l1 ++ r :: l2
     /\ getattr FI fuel h r attr = Ok v /\ py_in v (as_list value0) = true
     /\ forall n, n ∈ l1 ->
          exists w, getattr FI fuel h n attr = Ok w
                    /\ py_in w (as_list value0) = false)
  \/ (r = EmptyToken
      /\ forall n, n ∈ l ->
           exists w, getattr FI fuel h n attr = Ok w
                     /\ py_in w (as_list value0) = false).
Proof.
  intros Hc Hf Hr. unfold find_nearest_token in Hr.
  rewrite (find_nearest_loop_walk _ _ _ _ _ _ Hc _ Hf) in Hr.
  exact (walk_minimal _ _ _ _ Hr).
Qed.

Lemma find_nearest_token_nearest_witness :
  find_nearest_token [] 6 heap_a_b_c 5 (Single (VStr "a")) "left"
    (AField F_value) = Ok 1%nat
  /\ forall n, n ∈ [4; 3; 2]%nat ->
       exists w, getattr [] 6 heap_a_b_c n (AField F_value) = Ok w
                 /\ py_in w [VStr "a"] = false.
Proof.
  split; [reflexivity|].
  destruct (find_nearest_token_nearest [] 6 heap_a_b_c 5 [4; 3; 2; 1; 0]%nat
              (Single (VStr "a")) "left" (AField F_value) 1%nat
              chain_a_b_c ltac:(simpl; lia) eq_refl)
    as [(l1 & l2 & v & Hl & _ & _ & Hb)|[He _]]; [|discriminate He].
  assert (l1 = [4; 3; 2]%nat) as ->; [|exact Hb].
  destruct l1 as [|x1 [|x2 [|x3 [|x4 l1]]]]; simpl in Hl;
    try discriminate Hl.
  - now injection Hl as <- <- <-.
  - injection Hl as _ _ _ _ Hl. destruct l1 as [|y l1]; [discriminate Hl|].
    injection Hl as _ Hl. destruct l1; discriminate Hl.
Defined.

(** ** Parentheses *)

Lemma find_pointwise {A} (f g : A -> bool) l :
  (forall x, f x = g x) -> List.find f l = List.find g l.
Proof.
  intros H. induction l as [|x l IH]; simpl; [reflexivity|].
  now rewrite H, IH.
Qed.

(** A search by value along a chain returns the first token with that
    value. *)
Lemma find_nearest_by_value_chain fuel (h : heap) a l s direction :
  chain h (link_of direction) a l -> (List.length l < fuel)%nat ->
  find_nearest_by_value fuel h a (Single (VStr s)) direction
  = Ok (first_match (has_value_at h s) l).
Proof.
  intros Hc Hf. unfold find_nearest_by_value.
  rewrite (find_nearest_loop_walk _ _ _ _ _ _ Hc _ Hf).
  rewrite walk_first_match.
  - f_equal. unfold first_match. f_equal. apply find_pointwise.
    intros n. unfold attr_matches, has_value_at, deref.
    destruct (h !! n) as [t|]; [|reflexivity]. exec.
    unfold py_in. simpl. apply orb_false_r.
  - intros n Hn. destruct (chain_allocated _ _ _ _ _ Hc Hn) as [t Ht].
    exists (VStr (value t)). unfold deref. now rewrite Ht.
Qed.

Lemma first_match_value (h : heap) s l :
  h !! EmptyToken = Some sentinel -> s <> "" ->
  exists t, h !! first_match (has_value_at h s) l = Some t
            /\ negb (String.eqb (value t) "") = existsb (has_value_at h s) l.
Proof.
  intros Hs Hne. unfold first_match.
  induction l as [|n l IH]; simpl; [exists sentinel; now split|].
  destruct (has_value_at h s n) eqn:Hn; [|exact IH].
  unfold has_value_at in Hn. destruct (h !! n) as [t|] eqn:Ht; [|discriminate].
  exists t. split; [exact Ht|]. apply String.eqb_eq in Hn. rewrite Hn.
  simpl. apply negb_true_iff, String.eqb_neq. exact Hne.
Qed.

(** X6.  [is_in_parenthesis] is an existence test on each side: with the
    predecessors and the successors of the token ending at an absent link
    and the sentinel stored at [EmptyToken], it is true exactly when some
    predecessor has the value [(] and some successor has the value [)],
    whether or not the two match. *)
Theorem is_in_parenthesis_exists fuel (h : heap) a ll lr :
  chain h previous_token a ll -> chain h next_token a lr ->
  h !! EmptyToken = Some sentinel ->
  (List.length ll < fuel)%nat -> (List.length lr < fuel)%nat ->
  is_in_parenthesis fuel h a
  = Ok (existsb (has_value_at h "(") ll && existsb (has_value_at h ")") lr).
Proof.
  intros Hl Hr Hs Hfl Hfr. unfold is_in_parenthesis.
  rewrite (find_nearest_by_value_chain fuel h a ll "(" "left" Hl Hfl).
  rewrite (find_nearest_by_value_chain fuel h a lr ")" "right" Hr Hfr).
  destruct (first_match_value h "(" ll Hs ltac:(discriminate)) as (tl & Htl & El).
  destruct (first_match_value h ")" lr Hs ltac:(discriminate)) as (tr & Htr & Er).
  exec. unfold deref. rewrite Htl, Htr. exec. now rewrite El, Er.
Qed.

(** X7.  [is_in_with_columns] is false, and the search to the right is not
    run, when no predecessor of the token is tagged [is_with_columns_start]:
    so it is for every token until the builder tags a parenthesis. *)
Theorem is_in_with_columns_untagged fuel (h : heap) a ll :
  chain h previous_token a ll ->
  h !! EmptyToken = Some sentinel ->
  (List.length ll < fuel)%nat ->
  (forall n t, n ∈ ll -> h !! n = Some t -> is_with_columns_start t = false) ->
  is_in_with_columns fuel h a = Ok false.
Proof.
  intros Hl Hs Hf Hun. unfold is_in_with_columns.
  rewrite (find_nearest_by_value_chain fuel h a ll "(" "left" Hl Hf).
  exec. unfold deref, first_match.
  destruct (List.find (has_value_at h "(") ll) as [r|] eqn:E; simpl.
  - apply find_some in E as [Hin Hv]. apply list_elem_of_In in Hin.
    destruct (chain_allocated _ _ _ _ _ Hl Hin) as [t Ht].
    rewrite Ht. exec. now rewrite (Hun r t Hin Ht).
  - rewrite Hs. reflexivity.
Qed.

Lemma chain_call_left : chain heap_call previous_token 3 [2; 1; 0]%nat.
Proof. repeat (eapply chain_step; [reflexivity..|]). now eapply chain_end. Qed.

Lemma chain_call_right : chain heap_call next_token 3 [4; 0]%nat.
Proof. repeat (eapply chain_step; [reflexivity..|]). now eapply chain_end. Qed.

Lemma is_in_parenthesis_exists_witness :
  is_in_parenthesis 4 heap_call 3 = Ok true.
Proof.
  exact (is_in_parenthesis_exists 4 heap_call 3 [2; 1; 0]%nat [4; 0]%nat
           chain_call_left chain_call_right eq_refl
           ltac:(simpl; lia) ltac:(simpl; lia)).
Defined.

Lemma is_in_with_columns_untagged_witness :
  is_in_with_columns 4 heap_call 3 = Ok false.
Proof.
  apply (is_in_with_columns_untagged 4 heap_call 3 [2; 1; 0]%nat
           chain_call_left eq_refl ltac:(simpl; lia)).
  intros n t Hn Ht.
  repeat (apply elem_of_cons in Hn as [->|Hn];
          [injection Ht as <-; reflexivity|]).
  inversion Hn.
Defined.

(** ** Searches by a stored attribute *)

(** X12.  A search by a stored attribute never raises: on a
    sentinel-terminated chain in the direction asked for,
    [find_nearest_token] ends and returns the first token of the chain
    whose attribute is among the target values, and the sentinel when no
    token has; the result does not depend on the bound of the loop, as long
    as the bound exceeds the length of the chain. *)
Theorem find_nearest_token_stored FI fuel h a l value0 direction f :
  sentinel_terminated h (link_of direction) a l ->
  (List.length l < fuel)%nat ->
  find_nearest_token FI fuel h a value0 direction (AField f)
  = Ok (first_match (field_matches h f (as_list value0)) l)
  /\ (first_match (field_matches h f (as_list value0)) l ∈ l
      \/ first_match (field_matches h f (as_list value0)) l = EmptyToken)
  /\ (forall fuel', (List.length l < fuel')%nat ->
      find_nearest_token FI fuel' h a value0 direction (AField f)
      = find_nearest_token FI fuel h a value0 direction (AField f)).
Proof.
  intros (Hc & _ & _) Hf.
  assert (Hw : forall k, (List.length l < k)%nat ->
    find_nearest_token FI k h a value0 direction (AField f)
    = Ok (first_match (field_matches h f (as_list value0)) l)).
  { intros k Hk. unfold find_nearest_token.
    rewrite (find_nearest_loop_walk _ _ _ _ _ _ Hc _ Hk).
    rewrite walk_first_match.
    - f_equal. unfold first_match. f_equal. apply find_pointwise.
      intros n. unfold attr_matches, field_matches, getattr, deref.
      now destruct (h !! n).
    - intros n Hn. apply getattr_field.
      eapply chain_allocated; eassumption. }
  split; [now apply Hw|]. split.
  - unfold first_match.
    destruct (List.find _ l) as [r|] eqn:E; [|now right].
    left. apply find_some in E as [Hin _]. now apply list_elem_of_In.
  - intros fuel' Hf'. now rewrite (Hw _ Hf), (Hw _ Hf').
Qed.

Lemma find_nearest_token_stored_witness :
  find_nearest_token [] 6 heap_a_b_c 5 (Several [VStr "b"; VStr "a"]) "left"
    (AField F_value) = Ok 3%nat
  /\ find_nearest_token [] 6 heap_a_b_c 5 (Single (VStr "(")) "left"
       (AField F_value) = Ok EmptyToken.
Proof.
  split.
  - exact (proj1 (find_nearest_token_stored [] 6 heap_a_b_c 5
                    [4; 3; 2; 1; 0]%nat (Several [VStr "b"; VStr "a"]) "left"
                    F_value sentinel_terminated_a_b_c ltac:(simpl; lia))).
  - exact (proj1 (find_nearest_token_stored [] 6 heap_a_b_c 5
                    [4; 3; 2; 1; 0]%nat (Single (VStr "(")) "left"
                    F_value sentinel_terminated_a_b_c ltac:(simpl; lia))).
Defined.

(** ** Construction, before the links are wired *)

Lemma new_SQLToken_keeps (h : heap) tok index lvl kw a t :
  h !! a = Some t -> fst (new_SQLToken h tok index lvl kw) !! a = Some t.
Proof.
  intros Ha. unfold new_SQLToken, heap in *. cbn [fst].
  now apply lookup_app_l_Some.
Qed.

Lemma built_heap_objects h :
  built_heap h ->
  h !! EmptyToken = Some sentinel
  /\ forall a t, h !! a = Some t -> a <> EmptyToken ->
       previous_token t = Some EmptyToken /\ next_token t = Some EmptyToken.
Proof.
  induction 1 as [|h tok index lvl kw Hb [Hs Hall]].
  - split; [reflexivity|]. intros [|a] t Ha Hne; [now destruct Hne|].
    unfold module_heap, new_SQLToken in Ha. simpl in Ha. discriminate.
  - split; [now apply new_SQLToken_keeps|].
    intros a t Ha Hne. unfold new_SQLToken, heap in *. cbn [fst] in Ha.
    apply lookup_app_Some in Ha as [Ha|[_ Ha]]; [now apply (Hall a t)|].
    destruct (a - List.length h)%nat; [|discriminate].
    injection Ha as <-. split; reflexivity.
Qed.

(** X8.  Building tokens keeps the store well formed: after the module is
    loaded and any number of tokens are built from lexer tokens, the
    sentinel is still the object at [EmptyToken], and every other token is
    a sentinel-terminated chain of its own in both directions, its two
    links being the sentinel. *)
Theorem built_heap_chains h :
  built_heap h ->
  h !! EmptyToken = Some sentinel
  /\ forall a, a <> EmptyToken -> is_Some (h !! a) ->
       sentinel_terminated h previous_token a [EmptyToken]
       /\ sentinel_terminated h next_token a [EmptyToken].
Proof.
  intros Hb. destruct (built_heap_objects h Hb) as [Hs Hall].
  split; [exact Hs|]. intros a Hne [t Ht].
  destruct (Hall a t Ht Hne) as [Hp Hn].
  split; (split; [|split; [reflexivity|exact Hs]]);
    (eapply chain_step; [exact Ht|eassumption|]);
    (eapply chain_end; [exact Hs|reflexivity]).
Qed.

Lemma built_heap_chains_witness :
  sentinel_terminated heap_one_built previous_token 1 [EmptyToken]
  /\ sentinel_terminated heap_one_built next_token 1 [EmptyToken].
Proof.
  apply (built_heap_chains heap_one_built (built_new _ _ _ _ _ built_module)).
  - discriminate.
  - eexists. reflexivity.
Defined.

(** ** [is_alias_without_as], where it raises *)

(** X9.  Reading [is_alias_without_as] raises nothing but
    [AttributeError], and raises it exactly when the token has no next
    token, or has no previous token while its next token is a comma or
    [FROM].  With a next token that is neither, the property is false
    without the previous token being read: also when there is none. *)
Theorem is_alias_without_as_raises (h : heap) a t :
  h !! a = Some t ->
  (forall n, next_token t = Some n -> is_Some (h !! n)) ->
  (forall p, previous_token t = Some p -> is_Some (h !! p)) ->
  (forall e, is_alias_without_as h a = Raise e -> e = AttributeError)
  /\ (is_alias_without_as h a = Raise AttributeError <->
      next_token t = None
      \/ (previous_token t = None
          /\ exists n tn, next_token t = Some n /\ h !! n = Some tn
               /\ PyStr.str_in (normalized tn) [","; "FROM"] = true))
  /\ (forall n tn, next_token t = Some n -> h !! n = Some tn ->
        PyStr.str_in (normalized tn) [","; "FROM"] = false ->
        is_alias_without_as h a = Ok false)
  /\ (is_alias_without_as h a <> Raise AttributeError ->
      exists b, is_alias_without_as h a = Ok b).
Proof.
  intros Ha Hn Hp. unfold is_alias_without_as, deref, through.
  rewrite Ha. exec.
  destruct (next_token t) as [n|] eqn:En; exec.
  - destruct (Hn n eq_refl) as [tn Htn]. rewrite Htn. exec.
    destruct (PyStr.str_in (normalized tn) [","; "FROM"]) eqn:Enext.
    + destruct (previous_token t) as [p|] eqn:Ep; exec.
      * destruct (Hp p eq_refl) as [tp Htp]. rewrite Htp. exec.
        assert (Hno : exists b,
          (if negb (PyStr.str_in (normalized tp) [","; "."; "("; "SELECT"])
           then if String.eqb (last_keyword_normalized t) "SELECT"
                then Ok (negb (is_comment tp)) else Ok false
           else Ok false) = Ok b).
        { destruct (negb _); [destruct (String.eqb _ _)|]; eauto. }
        destruct Hno as [b ->].
        split; [discriminate|]. split; [|split; [|eauto]].
        -- split; [discriminate|]. intros [H|[H _]]; discriminate.
        -- intros n' tn' Hn' Htn' Hm.
           assert (n' = n) by congruence. subst n'.
           assert (tn' = tn) by congruence. subst tn'. congruence.
      * split; [now intros e [= <-]|]. split; [|split].
        -- split; [|reflexivity]. intros _. right. split; [reflexivity|].
           exists n, tn. split; [reflexivity|split; [exact Htn|exact Enext]].
        -- intros n' tn' Hn' Htn' Hm.
           assert (n' = n) by congruence. subst n'.
           assert (tn' = tn) by congruence. subst tn'. congruence.
        -- intros H. now destruct H.
    + split; [discriminate|]. split; [|split; [reflexivity|eauto]].
      split; [discriminate|].
      intros [H|[_ (n' & tn' & Hn' & Htn' & Hm)]]; [discriminate|].
      assert (n' = n) by congruence. subst n'.
      assert (tn' = tn) by congruence. subst tn'. congruence.
  - split; [now intros e [= <-]|]. split; [|split].
    + split; [now left|reflexivity].
    + intros n tn Hn'. discriminate Hn'.
    + intros H. now destruct H.
Qed.

Lemma is_alias_without_as_raises_witness :
  is_alias_without_as heap_a_b_c EmptyToken = Raise AttributeError
  /\ is_alias_without_as heap_no_previous 1 = Ok false.
Proof.
  split.
  - apply (is_alias_without_as_raises heap_a_b_c EmptyToken sentinel eq_refl).
    + discriminate.
    + discriminate.
    + now left.
  - destruct (is_alias_without_as_raises heap_no_previous 1
                (set_links (token_of "x" false Name 0 (Some "SELECT")) None
                   (Some EmptyToken)) eq_refl) as (_ & _ & H & _).
    + intros n [= <-]. eexists. reflexivity.
    + discriminate.
    + exact (H EmptyToken sentinel eq_refl eq_refl eq_refl).
Defined.

(** ** Qualified names of any depth *)

Lemma join_last_two sep xs x v :
  PyStr.join sep (xs ++ [x; v]) = PyStr.join sep (xs ++ [x +:+ sep +:+ v]).
Proof.
  induction xs as [|y ys IH]; [reflexivity|].
  change (PyStr.join sep ((y :: ys) ++ [x; v]))
    with (match ys ++ [x; v] with
          | [] => y
          | _ => y +:+ sep +:+ PyStr.join sep (ys ++ [x; v])
          end).
  change (PyStr.join sep ((y :: ys) ++ [x +:+ sep +:+ v]))
    with (match ys ++ [x +:+ sep +:+ v] with
          | [] => y
          | _ => y +:+ sep +:+ PyStr.join sep (ys ++ [x +:+ sep +:+ v])
          end).
  rewrite IH. now destruct ys.
Qed.

Lemma prepend_names_join (pairs : list (SQLToken * SQLToken)) : forall v,
  fold_left (fun acc dq =>
               if is_name (snd dq) then str (snd dq) +:+ "." +:+ acc else acc)
    pairs v
  = PyStr.join "." (qualifier_names pairs ++ [v]).
Proof.
  unfold qualifier_names.
  induction pairs as [|[d q] pairs IH]; intros v; [reflexivity|].
  simpl fold_left. rewrite IH. simpl map. simpl List.filter.
  destruct (is_name q); [|reflexivity].
  simpl map. simpl rev. rewrite <- app_assoc. symmetry. apply join_last_two.
Qed.

Lemma expand_qualifiers pairs rest : forall v,
  Forall (fun dq => is_dot (fst dq) = true) pairs ->
  (forall d, head rest = Some d -> is_dot d = false) ->
  expand (qualifiers pairs ++ rest) v
  = fold_left (fun acc dq =>
                 if is_name (snd dq) then str (snd dq) +:+ "." +:+ acc else acc)
      pairs v.
Proof.
  induction pairs as [|[d q] pairs IH]; intros v Hq Hrest.
  - simpl. destruct rest as [|d [|p rest]]; try reflexivity.
    simpl. now rewrite (Hrest d eq_refl).
  - inversion Hq as [|dq ps Hd Hq']; subst. simpl in Hd.
    simpl. rewrite Hd. now apply IH.
Qed.

(** X10.  Qualification of any depth: when the predecessors of a token
    are [k] segments, each after a dot, and what comes before them is not a
    dot, [left_expanded] is the segments that are names, outermost first,
    and the token's own text, joined by dots, with the back quotes at both
    ends stripped.  A segment that is not a name is left out, and the
    segments before it are still taken. *)
Theorem left_expanded_qualified fuel h a t l pairs rest :
  sentinel_terminated h previous_token a l ->
  h !! a = Some t ->
  objects h l (qualifiers pairs ++ rest) ->
  (List.length l < fuel)%nat ->
  Forall (fun dq => is_dot (fst dq) = true) pairs ->
  (forall d, head rest = Some d -> is_dot d = false) ->
  left_expanded fuel h a
  = Ok (PyStr.strip "`" (PyStr.join "." (qualifier_names pairs ++ [str t]))).
Proof.
  intros Hst Ha Ho Hf Hq Hrest.
  unfold left_expanded, deref. rewrite Ha. exec.
  rewrite (left_expanded_loop_expand h fuel a l _ (str t) Hst Ho Hf). exec.
  rewrite (expand_qualifiers pairs rest (str t) Hq Hrest).
  now rewrite prepend_names_join.
Qed.

Lemma sentinel_terminated_a_symbol_c :
  sentinel_terminated heap_a_symbol_c previous_token 5 (down 4).
Proof.
  split; [|split; reflexivity].
  repeat (eapply chain_step; [reflexivity..|]). now eapply chain_end.
Qed.

Lemma left_expanded_qualified_witness :
  left_expanded 6 heap_a_symbol_c 5 = Ok "a.c".
Proof.
  assert (Ho : objects heap_a_symbol_c (down 4)
                 (qualifiers [(object_at heap_a_symbol_c 4, object_at heap_a_symbol_c 3);
                              (object_at heap_a_symbol_c 2, object_at heap_a_symbol_c 1)]
                  ++ [object_at heap_a_symbol_c 0])).
  { unfold objects. repeat (constructor; [reflexivity|]). constructor. }
  refine (left_expanded_qualified 6 heap_a_symbol_c 5 (object_at heap_a_symbol_c 5)
            (down 4) _ _ sentinel_terminated_a_symbol_c eq_refl Ho
            ltac:(simpl; lia) _ _).
  - repeat (constructor; [reflexivity|]). constructor.
  - intros d [= <-]. reflexivity.
Defined.

(** ** Qualification deeper than three segments *)

Lemma split_length sep s :
  List.length (PyStr.split sep s) = S (count_char sep s).
Proof.
  induction s as [|c s IH]; simpl; [reflexivity|].
  rewrite (Ascii.eqb_sym sep c). destruct (Ascii.eqb c sep); simpl.
  - now rewrite IH.
  - destruct (PyStr.split sep s); simpl in *; [discriminate|exact IH].
Qed.

Lemma count_char_append c a b :
  count_char c (a +:+ b) = (count_char c a + count_char c b)%nat.
Proof. induction a as [|d a IH]; simpl; [reflexivity|]. rewrite IH. lia. Qed.

Lemma count_char_in c s :
  (0 < count_char c s)%nat -> PyStr.char_in c s = true.
Proof.
  unfold PyStr.char_in. induction s as [|d s IH]; simpl; [lia|].
  destruct (Ascii.eqb c d); [reflexivity|]. exact IH.
Qed.

Lemma char_in_not_sep sep chars d :
  PyStr.char_in sep chars = false -> PyStr.char_in d chars = true ->
  Ascii.eqb sep d = false.
Proof.
  intros Hs Hd. destruct (Ascii.eqb_spec sep d) as [->|]; congruence.
Qed.

Lemma count_char_lstrip sep chars s :
  PyStr.char_in sep chars = false ->
  count_char sep (PyStr.lstrip chars s) = count_char sep s.
Proof.
  intros Hs. induction s as [|d s IH]; simpl; [reflexivity|].
  destruct (PyStr.char_in d chars) eqn:Hd; [|reflexivity].
  now rewrite IH, (char_in_not_sep _ _ _ Hs Hd).
Qed.

Lemma count_char_rstrip sep chars s :
  PyStr.char_in sep chars = false ->
  count_char sep (PyStr.rstrip chars s) = count_char sep s.
Proof.
  intros Hs. induction s as [|d s IH]; simpl; [reflexivity|].
  destruct (PyStr.rstrip chars s) as [|e r].
  - rewrite <- IH. destruct (PyStr.char_in d chars) eqn:Hd; simpl.
    + now rewrite (char_in_not_sep _ _ _ Hs Hd).
    + reflexivity.
  - simpl. simpl in IH. now rewrite IH.
Qed.

Lemma count_char_strip sep chars s :
  PyStr.char_in sep chars = false ->
  count_char sep (PyStr.strip chars s) = count_char sep s.
Proof.
  intros Hs. unfold PyStr.strip.
  now rewrite count_char_rstrip, count_char_lstrip.
Qed.

Lemma count_char_join sep xs :
  (List.length xs - 1 <= count_char sep (PyStr.join (String sep "") xs))%nat.
Proof.
  induction xs as [|p [|q ps] IH]; [simpl; lia..|].
  change (PyStr.join (String sep "") (p :: q :: ps))
    with (p +:+ String sep (PyStr.join (String sep "") (q :: ps))).
  rewrite count_char_append.
  change (count_char sep (String sep (PyStr.join (String sep "") (q :: ps))))
    with ((if Ascii.eqb sep sep then 1 else 0)
          + count_char sep (PyStr.join (String sep "") (q :: ps)))%nat.
  rewrite Ascii.eqb_refl.
  change (List.length (p :: q :: ps)) with (S (List.length (q :: ps))).
  generalize dependent (PyStr.join (String sep "") (q :: ps)).
  intros j Hj. simpl List.length in *. lia.
Qed.

(** X11.  A name with three or more qualifiers cannot be prefixed: when
    the segments before the token, each after a dot, hold at least three
    names, [table_prefixed_column] raises [ValueError] whatever the
    aliases. *)
Theorem table_prefixed_column_too_deep fuel h a t l pairs rest table_aliases :
  sentinel_terminated h previous_token a l ->
  h !! a = Some t ->
  objects h l (qualifiers pairs ++ rest) ->
  (List.length l < fuel)%nat ->
  Forall (fun dq => is_dot (fst dq) = true) pairs ->
  (forall d, head rest = Some d -> is_dot d = false) ->
  (3 <= List.length (qualifier_names pairs))%nat ->
  exists msg,
    table_prefixed_column fuel h a table_aliases = Raise (ValueError msg).
Proof.
  intros Hst Ha Ho Hf Hq Hrest Hdeep.
  unfold table_prefixed_column, left_expanded, deref. rewrite Ha. exec.
  rewrite (left_expanded_loop_expand h fuel a l _ (str t) Hst Ho Hf). exec.
  rewrite (expand_qualifiers pairs rest (str t) Hq Hrest), prepend_names_join.
  set (names := qualifier_names pairs ++ [str t]).
  assert (Hdots : (3 <= count_char "." (PyStr.strip "`" (PyStr.join "." names)))%nat).
  { rewrite count_char_strip by reflexivity.
    pose proof (count_char_join "." names) as Hj.
    assert (List.length names = S (List.length (qualifier_names pairs))) as Hn.
    { unfold names. rewrite length_app. simpl. lia. }
    lia. }
  rewrite count_char_in by lia.
  rewrite split_length.
  destruct (Nat.ltb_spec 3 (S (count_char "." (PyStr.strip "`" (PyStr.join "." names)))));
    [eauto|lia].
Qed.

Lemma sentinel_terminated_a_b_c_d :
  sentinel_terminated heap_a_b_c_d previous_token 7 (down 6).
Proof.
  split; [|split; reflexivity].
  repeat (eapply chain_step; [reflexivity..|]). now eapply chain_end.
Qed.

Lemma table_prefixed_column_too_deep_witness :
  exists msg,
    table_prefixed_column 8 heap_a_b_c_d 7 ∅ = Raise (ValueError msg).
Proof.
  assert (Ho : objects heap_a_b_c_d (down 6)
                 (qualifiers [(object_at heap_a_b_c_d 6, object_at heap_a_b_c_d 5);
                              (object_at heap_a_b_c_d 4, object_at heap_a_b_c_d 3);
                              (object_at heap_a_b_c_d 2, object_at heap_a_b_c_d 1)]
                  ++ [object_at heap_a_b_c_d 0])).
  { unfold objects. repeat (constructor; [reflexivity|]). constructor. }
  refine (table_prefixed_column_too_deep 8 heap_a_b_c_d 7
            (object_at heap_a_b_c_d 7) (down 6) _ _ ∅
            sentinel_terminated_a_b_c_d eq_refl Ho
            ltac:(simpl; lia) _ _ ltac:(simpl; lia)).
  - repeat (constructor; [reflexivity|]). constructor.
  - intros d [= <-]. reflexivity.
Defined.
